(** * chess-llm: the move negotiation and the game orchestrator

    A shallow embedding of [src/lib/chess-ai.ts] ([generateMove] and the
    [ChessGame] component: [startGame], [checkGameStatus], [findKingSquare],
    [handleMove], the timer effect), of [ChessBoard.onDrop]
    ([src/components/game-timer.tsx]) and of the key dialog's [handleSubmit].

    chess.js, the completion service, [JSON.parse]/zod and [Math.random] are
    not part of the repository: they are taken as parameters ([Rules],
    [Json], the completion outcome, a random draw). *)

From Stdlib Require Import String Ascii List Arith ZArith Bool Lia DecimalString.
Import ListNotations.
Open Scope string_scope.

Set Implicit Arguments.

(* ================================================================== *)
(** ** JavaScript strings, truthiness and numbers *)

Definition nl : string := String (ascii_of_nat 10) EmptyString.
Definition dq : string := String (ascii_of_nat 34) EmptyString.

(** [s.includes(sub)] *)
Fixpoint includes (s sub : string) : bool :=
  if prefix sub s then true
  else match s with
       | EmptyString => false
       | String _ rest => includes rest sub
       end.

(** [s.startsWith(p)] *)
Definition startsWith (s p : string) : bool := prefix p s.

(** truthiness of a string: non-empty *)
Definition truthy (s : string) : bool :=
  match s with EmptyString => false | String _ _ => true end.

(** truthiness of a possibly [undefined] string *)
Definition truthy_opt (s : option string) : bool :=
  match s with Some t => truthy t | None => false end.

(** a non-negative integer printed by a template literal *)
Definition show_nat (n : nat) : string := NilEmpty.string_of_uint (Nat.to_uint n).

(** The white space [String.prototype.trim] removes. A character stands
    for the code unit of its number, so strings are those of code units
    below 256; of the white space and line terminators of JavaScript these
    are 9 to 13, 32 and 160 (the no-break space). *)
Definition is_space (c : ascii) : bool :=
  let n := nat_of_ascii c in
  Nat.eqb n 32 || (Nat.leb 9 n && Nat.leb n 13) || Nat.eqb n 160.

Fixpoint trimStart (s : string) : string :=
  match s with
  | String c rest => if is_space c then trimStart rest else s
  | EmptyString => EmptyString
  end.

Fixpoint trimEnd (s : string) : string :=
  match s with
  | EmptyString => EmptyString
  | String c rest =>
      match trimEnd rest with
      | EmptyString => if is_space c then EmptyString else String c EmptyString
      | r => String c r
      end
  end.

Definition trim (s : string) : string := trimEnd (trimStart s).

(** [Array.prototype.join] *)
Fixpoint join (sep : string) (l : list string) : string :=
  match l with
  | [] => EmptyString
  | [x] => x
  | x :: rest => x ++ sep ++ join sep rest
  end.

(** [arr.slice(-n)]: the last [n] elements (all of them when there are fewer) *)
Definition slice_last {A} (n : nat) (l : list A) : list A :=
  skipn (length l - n) l.

(** [arr.map((x, index) => f x index)] *)
Fixpoint mapi_from {A B} (i : nat) (f : A -> nat -> B) (l : list A) : list B :=
  match l with
  | [] => []
  | x :: rest => f x i :: mapi_from (S i) f rest
  end.

Definition mapi {A B} (f : A -> nat -> B) (l : list A) : list B := mapi_from 0 f l.

(** the first [Some] a search returns, as a [for] loop with an early [return] *)
Fixpoint first_some {A B} (f : A -> option B) (l : list A) : option B :=
  match l with
  | [] => None
  | x :: rest => match f x with Some b => Some b | None => first_some f rest end
  end.

(** A JavaScript [Error]: its [name] and its [message] (empty when absent). *)
Record JsError := mkError { e_name : string; e_message : string }.

Definition Error (msg : string) : JsError := mkError "Error" msg.

(** [Math.random()]: the rational [rnd_num / (rnd_num + rnd_gap + 1)], which
    ranges over exactly the rationals of [0, 1). *)
Record Rand := mkRand { rnd_num : nat; rnd_gap : nat }.

(** [Math.floor(Math.random() * n)] *)
Definition random_index (r : Rand) (n : nat) : nat :=
  (rnd_num r * n) / (rnd_num r + rnd_gap r + 1).

(* ================================================================== *)
(** ** Types of [src/app/types/game.ts] *)

Inductive GameResult := player | ai | draw.
Inductive GameStatus := waiting | playing | ended.
Inductive ResultReason :=
  | by_checkmate | by_stalemate | by_time | by_resignation
  | by_insufficient | by_repetition | by_fifty_move.

Record GameState := mkGameState {
  fen : string;
  isPlayerTurn : bool;
  gameStatus : GameStatus;
  result : option GameResult;
  resultReason : option ResultReason;
  inCheck : bool;
  checkSquare : option string
}.

Inductive Player := You | AI.

Record ChessMove := mkChessMove {
  cm_san : string;
  cm_player : Player;
  cm_fen : string;
  cm_piece : string;
  cm_from : string;
  cm_to : string;
  cm_captured : option string;
  cm_check : bool;
  cm_checkmate : bool;
  cm_reasoning : option string
}.

(** [Partial<GameState>]: every key optional. *)
Record PartialGameState := mkPartial {
  p_fen : option string;
  p_isPlayerTurn : option bool;
  p_gameStatus : option GameStatus;
  p_result : option (option GameResult);
  p_resultReason : option (option ResultReason);
  p_inCheck : option bool;
  p_checkSquare : option (option string)
}.

Definition or_else {A} (o : option A) (d : A) : A :=
  match o with Some a => a | None => d end.

(** the object spread [{ ...prev, ...partial }] *)
Definition spread (prev : GameState) (p : PartialGameState) : GameState :=
  {| fen := or_else (p_fen p) (fen prev);
     isPlayerTurn := or_else (p_isPlayerTurn p) (isPlayerTurn prev);
     gameStatus := or_else (p_gameStatus p) (gameStatus prev);
     result := or_else (p_result p) (result prev);
     resultReason := or_else (p_resultReason p) (resultReason prev);
     inCheck := or_else (p_inCheck p) (inCheck prev);
     checkSquare := or_else (p_checkSquare p) (checkSquare prev) |}.

Definition GameStatus_eqb (a b : GameStatus) : bool :=
  match a, b with
  | waiting, waiting | playing, playing | ended, ended => true
  | _, _ => false
  end.

(* ================================================================== *)
(** ** The chess.js interface the code uses *)

(** chess.js colours: ["w"] and ["b"]. *)
Inductive Color := White | Black.

Definition Color_eqb (x y : Color) : bool :=
  match x, y with White, White | Black, Black => true | _, _ => false end.

(** What the code reads of a chess.js [Move]. *)
Record Move := mkMove {
  m_from : string;
  m_to : string;
  m_promotion : option string;
  m_piece : string;
  m_captured : option string;
  m_san : string
}.

(** The argument of [chess.move({ from, to, promotion })]. *)
Record MoveRequest := mkRequest {
  rq_from : string;
  rq_to : string;
  rq_promotion : option string
}.

(** [chess.move(...)]: the move made and the position it leads to, or, for a
    move the engine refuses, [null] or an exception (the callers allow for
    both: [onDrop] tests for [null] inside a [try]). *)
Inductive MoveOutcome :=
| Applied (m : Move) (fen' : string)
| MoveNull
| MoveThrows (msg : string).

Record Piece := mkPiece { pc_type : string; pc_color : Color }.

(** A chess.js instance is determined by the FEN it was loaded from, so every
    query is a function of that FEN. *)
Record Rules := mkRules {
  moves : string -> list Move;                     (* moves({ verbose: true }) *)
  move : string -> MoveRequest -> MoveOutcome;
  isCheck : string -> bool;
  isCheckmate : string -> bool;
  isStalemate : string -> bool;
  isInsufficientMaterial : string -> bool;
  isThreefoldRepetition : string -> bool;
  isDraw : string -> bool;
  turn : string -> Color;
  board : string -> list (list (option Piece))
}.

(** Passing a [Move] object itself to [chess.move]. *)
Definition request_of (m : Move) : MoveRequest :=
  {| rq_from := m_from m; rq_to := m_to m; rq_promotion := m_promotion m |}.

(* ================================================================== *)
(** ** [generateMove] ([src/lib/chess-ai.ts], lines 16-219) *)

(** The value [moveResponseSchema] accepts. *)
Record MoveResponse := mkResponse {
  r_from : string;
  r_to : string;
  r_promotion : option string;
  r_reasoning : string
}.

(** [moveResponseSchema.parse(JSON.parse(text))]: a response, or the
    [SyntaxError] / [ZodError] thrown. *)
Inductive ParseOutcome :=
| Parsed (r : MoveResponse)
| ParseFails (e : JsError).

(** An element of [formattedMoves]. *)
Record FormattedMove := mkFormatted {
  f_from : string;
  f_to : string;
  f_promotion : option string;
  f_piece : string;
  f_captured : option string;
  f_san : string
}.

(** The built-in JSON functions, as the code calls them. *)
Record Json := mkJson {
  parseMoveResponse : string -> ParseOutcome;
  stringifyMoves : list FormattedMove -> string   (* JSON.stringify(_, null, 2) *)
}.

(** What [generateText] gives back: the text, or the error it rejects with. *)
Inductive Completion :=
| Text (text : string)
| Failed (e : JsError).

(** The value [generateMove] resolves to. [gm_move] is what [chess.move]
    returned on the validated path, [null] included. *)
Record GeneratedMove := mkGenerated {
  gm_fen : string;
  gm_move : option Move;
  gm_reasoning : string
}.

(** A computation that may ask the completion service for a text and
    [Math.random] for a number, and ends by returning or throwing. *)
Inductive Prog (A : Type) : Type :=
| Ret (a : A)
| Throw (e : JsError)
| GenerateText (model prompt : string) (k : Completion -> Prog A)
| MathRandom (k : Rand -> Prog A).

Arguments Ret {A} a.
Arguments Throw {A} e.
Arguments GenerateText {A} model prompt k.
Arguments MathRandom {A} k.

Inductive Outcome (A : Type) : Type :=
| Returned (a : A)
| Thrown (e : JsError).

Arguments Returned {A} a.
Arguments Thrown {A} e.

(** Running a computation against one completion service and one draw. *)
Fixpoint run {A} (p : Prog A) (service : string -> string -> Completion) (r : Rand)
  : Outcome A :=
  match p with
  | Ret a => Returned a
  | Throw e => Thrown e
  | GenerateText model prompt k => run (k (service model prompt)) service r
  | MathRandom k => run (k r) service r
  end.

(** The computation never reaches the completion service. *)
Fixpoint no_request {A} (p : Prog A) : Prop :=
  match p with
  | Ret _ | Throw _ => True
  | GenerateText _ _ _ => False
  | MathRandom k => forall r, no_request (k r)
  end.

(** The prompt of the request the computation starts with, if it starts
    with one. *)
Definition first_request {A} (p : Prog A) : option string :=
  match p with
  | GenerateText _ prompt _ => Some prompt
  | _ => None
  end.

Definition human_moves (recentMoves : list ChessMove) : list ChessMove :=
  filter (fun m => match cm_player m with You => true | AI => false end) recentMoves.

Definition human_moves_of (kind : string) (recentMoves : list ChessMove) : list ChessMove :=
  filter (fun m => match cm_player m with You => true | AI => false end
                   && String.eqb (cm_piece m) kind) recentMoves.

Definition captures (recentMoves : list ChessMove) : list ChessMove :=
  filter (fun m => truthy_opt (cm_captured m)) recentMoves.

(** Lines 82-102: the first bullet under "patterns and strategies". *)
Definition tendency (recentMoves : list ChessMove) : string :=
  if (2 <=? length recentMoves)%nat then
    "The human player tends to " ++
    (if (2 <=? length (human_moves recentMoves))%nat then
       "favor " ++
       (if (2 <=? length (human_moves_of "p" recentMoves))%nat then "pawn moves"
        else if (2 <=? length (human_moves_of "n" recentMoves))%nat then "knight development"
        else if (2 <=? length (human_moves_of "b" recentMoves))%nat then "bishop development"
        else "piece development")
     else "play aggressively")
  else "This is early in the game".

(** Lines 103-109: the second bullet. *)
Definition capture_note (recentMoves : list ChessMove) : string :=
  if (0 <? length (captures recentMoves))%nat then
    "There have been " ++ show_nat (length (captures recentMoves)) ++ " captures so far"
  else "No pieces have been captured yet".

(** Lines 48: [moveHistory.slice(-7)]. *)
Definition recentMovesOf (moveHistory : list ChessMove) : list ChessMove :=
  slice_last 7 moveHistory.

(** Lines 51-61. *)
Definition formattedHistory (moveHistory : list ChessMove) : string :=
  let recentMoves := recentMovesOf moveHistory in
  join nl
    (mapi (fun m index =>
             show_nat (index / 2 + (length moveHistory - length recentMoves) / 2 + 1)
             ++ ". " ++ match cm_player m with You => "Human" | AI => "AI" end
             ++ ": " ++ cm_san m
             ++ (if truthy_opt (cm_reasoning m)
                 then " (" ++ or_else (cm_reasoning m) EmptyString ++ ")"
                 else EmptyString))
          recentMoves).

Definition formattedMoves (legalMoves : list Move) : list FormattedMove :=
  map (fun m => {| f_from := m_from m; f_to := m_to m; f_promotion := m_promotion m;
                   f_piece := m_piece m; f_captured := m_captured m; f_san := m_san m |})
      legalMoves.

(** Lines 151-159: the answer format shown to the model. *)
Definition response_format : string :=
  "{" ++ nl ++
  "  " ++ dq ++ "move" ++ dq ++ ": {" ++ nl ++
  "    " ++ dq ++ "from" ++ dq ++ ": " ++ dq ++ "square1" ++ dq ++ "," ++ nl ++
  "    " ++ dq ++ "to" ++ dq ++ ": " ++ dq ++ "square2" ++ dq ++ "," ++ nl ++
  "    " ++ dq ++ "promotion" ++ dq ++ ": " ++ dq ++ "q" ++ dq
         ++ " // optional, only if this is a promotion move" ++ nl ++
  "  }," ++ nl ++
  "  " ++ dq ++ "reasoning" ++ dq ++ ": " ++ dq
       ++ "Brief explanation of why you chose this move" ++ dq ++ nl ++
  "}".

(** Lines 186-194: the test for an API key error. *)
Definition isAuthError (error : JsError) : bool :=
  truthy (e_message error) &&
  (includes (e_message error) "API key"
   || includes (e_message error) "authentication"
   || includes (e_message error) "auth"
   || includes (e_message error) "401"
   || includes (e_message error) "403").

Definition invalid_key_message : string :=
  "Invalid or expired OpenAI API key. Please update your API key.".

Definition fallback_reasoning : string := "Random move (AI generation failed)".

Section GenerateMove.

Variable R : Rules.
Variable J : Json.

(** Lines 72-159: the prompt. *)
Definition prompt (fen : string) (moveHistory : list ChessMove) (legalMoves : list Move)
  : string :=
  let recentMoves := recentMovesOf moveHistory in
  let inCheck := isCheck R fen in
  let checkmatePossible := existsb (fun m => includes (m_san m) "#") legalMoves in
  let defensiveNeeded := inCheck in
  "You are an expert chess player with a 1800 ELO rating. You will analyze the current board position and choose the best move."
  ++ nl ++ nl
  ++ "The current board position in FEN notation is: " ++ fen ++ nl
  ++ "          " ++ nl
  ++ (if (0 <? length recentMoves)%nat then
        "Recent game history (last " ++ show_nat (length recentMoves) ++ " moves):" ++ nl
        ++ formattedHistory moveHistory ++ nl ++ nl
        ++ "Based on this game history, I can see the following patterns and strategies:" ++ nl
        ++ "- " ++ tendency recentMoves ++ nl
        ++ "- " ++ capture_note recentMoves ++ nl
      else "This is the beginning of the game.")
  ++ nl ++ nl
  ++ (if inCheck then "IMPORTANT: Your king is in check! You must respond to this threat."
      else EmptyString) ++ nl
  ++ (if checkmatePossible
      then "IMPORTANT: There's a potential checkmate available. Look for it carefully."
      else EmptyString) ++ nl
  ++ (if defensiveNeeded
      then "IMPORTANT: You need to play defensively to protect your king."
      else EmptyString)
  ++ nl ++ nl
  ++ "Here are all the legal moves you can make:" ++ nl
  ++ stringifyMoves J (formattedMoves legalMoves)
  ++ nl ++ nl
  ++ "Analyze the position and choose the best move. Consider:" ++ nl
  ++ "1. " ++ (if inCheck then "Getting out of check is your top priority!"
               else "The recent game history and opponent's strategy") ++ nl
  ++ "2. " ++ (if checkmatePossible then "Look for checkmate opportunities"
               else "Piece development and center control") ++ nl
  ++ "3. " ++ (if defensiveNeeded then "Defensive needs and king safety"
               else "King safety and tactical opportunities") ++ nl
  ++ "4. Potential threats and future plans" ++ nl ++ nl
  ++ "Return your response in the following JSON format only:" ++ nl
  ++ response_format.

(** Lines 167-182, the body of the [try] after the completion has settled:
    the value returned, or the error that reaches the [catch]. The chess
    instance was created from [fen] and has not moved yet. *)
Definition attempt (fen : string) (c : Completion) : GeneratedMove + JsError :=
  match c with
  | Failed e => inr e
  | Text text =>
      match parseMoveResponse J text with
      | ParseFails e => inr e
      | Parsed parsedResponse =>
          match move R fen {| rq_from := r_from parsedResponse;
                              rq_to := r_to parsedResponse;
                              rq_promotion := r_promotion parsedResponse |} with
          | Applied result fen' =>
              inl {| gm_fen := fen'; gm_move := Some result;
                     gm_reasoning := r_reasoning parsedResponse |}
          | MoveNull =>
              inl {| gm_fen := fen; gm_move := None;
                     gm_reasoning := r_reasoning parsedResponse |}
          | MoveThrows msg => inr (Error msg)
          end
      end
  end.

(** Lines 205-217: the random legal move. An index past the end cannot
    occur ([random_index] stays below the length); there [chess.move]
    would be handed [undefined]. *)
Definition fallback (fen : string) (legalMoves : list Move) : Prog GeneratedMove :=
  if (0 <? length legalMoves)%nat then
    MathRandom (fun r =>
      match nth_error legalMoves (random_index r (length legalMoves)) with
      | Some randomMove =>
          match move R fen (request_of randomMove) with
          | Applied _ fen' =>
              Ret {| gm_fen := fen'; gm_move := Some randomMove;
                     gm_reasoning := fallback_reasoning |}
          | MoveNull =>
              Ret {| gm_fen := fen; gm_move := Some randomMove;
                     gm_reasoning := fallback_reasoning |}
          | MoveThrows msg => Throw (Error msg)
          end
      | None => Throw (mkError "TypeError" "chess.move(undefined)")
      end)
  else Throw (Error "Failed to generate a move").

(** Lines 183-218: the [catch] block. *)
Definition on_error (fen : string) (legalMoves : list Move) (error : JsError)
  : Prog GeneratedMove :=
  if isAuthError error then Throw (Error invalid_key_message)
  else fallback fen legalMoves.

Definition generateMove (fen : string) (moveHistory : list ChessMove)
    (apiKey modelName : string) : Prog GeneratedMove :=
  if negb (truthy apiKey) then Throw (Error "OpenAI API key is required")
  else
    let legalMoves := moves R fen in
    if (length legalMoves =? 0)%nat then Throw (Error "No legal moves available")
    else
      GenerateText modelName (prompt fen moveHistory legalMoves)
        (fun c => match attempt fen c with
                  | inl generated => Ret generated
                  | inr error => on_error fen legalMoves error
                  end).

End GenerateMove.

(* ================================================================== *)
(** ** The [ChessGame] component ([src/lib/chess-ai.ts], lines 256-601) *)

Definition start_fen : string :=
  "rnbqkbnr/pppppppp/8/8/8/8/PPPPPPPP/RNBQKBNR w KQkq - 0 1".

(** The React state of the component, with [chessRef.current] given by the
    FEN it was last loaded from. *)
Record App := mkApp {
  gameState : GameState;
  playerTime : Z;
  aiTime : Z;
  isThinking : bool;
  moveHistory : list ChessMove;
  chessRef : string;
  apiKey : string;
  isApiKeyModalOpen : bool;
  selectedModel : string
}.

Definition setGameState (f : GameState -> GameState) (a : App) : App :=
  mkApp (f (gameState a)) (playerTime a) (aiTime a) (isThinking a) (moveHistory a)
        (chessRef a) (apiKey a) (isApiKeyModalOpen a) (selectedModel a).

Definition setPlayerTime (t : Z) (a : App) : App :=
  mkApp (gameState a) t (aiTime a) (isThinking a) (moveHistory a)
        (chessRef a) (apiKey a) (isApiKeyModalOpen a) (selectedModel a).

Definition setAiTime (t : Z) (a : App) : App :=
  mkApp (gameState a) (playerTime a) t (isThinking a) (moveHistory a)
        (chessRef a) (apiKey a) (isApiKeyModalOpen a) (selectedModel a).

Definition setIsThinking (v : bool) (a : App) : App :=
  mkApp (gameState a) (playerTime a) (aiTime a) v (moveHistory a)
        (chessRef a) (apiKey a) (isApiKeyModalOpen a) (selectedModel a).

Definition setMoveHistory (f : list ChessMove -> list ChessMove) (a : App) : App :=
  mkApp (gameState a) (playerTime a) (aiTime a) (isThinking a) (f (moveHistory a))
        (chessRef a) (apiKey a) (isApiKeyModalOpen a) (selectedModel a).

Definition loadChessRef (fen : string) (a : App) : App :=
  mkApp (gameState a) (playerTime a) (aiTime a) (isThinking a) (moveHistory a)
        fen (apiKey a) (isApiKeyModalOpen a) (selectedModel a).

Definition setApiKey (key : string) (a : App) : App :=
  mkApp (gameState a) (playerTime a) (aiTime a) (isThinking a) (moveHistory a)
        (chessRef a) key (isApiKeyModalOpen a) (selectedModel a).

Definition setIsApiKeyModalOpen (v : bool) (a : App) : App :=
  mkApp (gameState a) (playerTime a) (aiTime a) (isThinking a) (moveHistory a)
        (chessRef a) (apiKey a) v (selectedModel a).

Definition setSelectedModel (model : string) (a : App) : App :=
  mkApp (gameState a) (playerTime a) (aiTime a) (isThinking a) (moveHistory a)
        (chessRef a) (apiKey a) (isApiKeyModalOpen a) model.

Definition no_keys : PartialGameState := mkPartial None None None None None None None.

(** Lines 257-274: the initial state. *)
Definition initial_app : App :=
  {| gameState := {| fen := start_fen; isPlayerTurn := true; gameStatus := waiting;
                     result := None; resultReason := None;
                     inCheck := false; checkSquare := None |};
     playerTime := 600; aiTime := 600; isThinking := false; moveHistory := [];
     chessRef := start_fen; apiKey := EmptyString; isApiKeyModalOpen := false;
     selectedModel := "gpt-4" |}.

(** Lines 277-297. [startGame] is a closure of one render: the [apiKey] it
    tests is the one of that render, given here as [closureKey]. *)
Definition fresh_game : GameState :=
  {| fen := start_fen; isPlayerTurn := true; gameStatus := playing;
     result := None; resultReason := None; inCheck := false; checkSquare := None |}.

Definition startGame_in (closureKey : string) (a : App) : App :=
  if negb (truthy closureKey) then setIsApiKeyModalOpen true a
  else
    setMoveHistory (fun _ => [])
      (setAiTime 600
         (setPlayerTime 600
            (setGameState (fun _ => fresh_game) (loadChessRef start_fen a)))).

Definition startGame (a : App) : App := startGame_in (apiKey a) a.

(** Lines 592-601. The [startGame] it calls still sees the old key. *)
Definition handleApiKeySubmit (key model : string) (a : App) : App :=
  let a1 := setIsApiKeyModalOpen false (setSelectedModel model (setApiKey key a)) in
  match gameStatus (gameState a) with
  | waiting => startGame_in (apiKey a) a1
  | _ => a1
  end.

(** The key dialog's [handleSubmit] ([src/unnamed/part_000], lines 45-66),
    with [onClose] as the component passes it (line 881). *)
Definition handleSubmit (key model : string) (a : App) : App :=
  if negb (truthy key) || String.eqb (trim key) EmptyString then a
  else if negb (startsWith key "sk-") then a
  else setIsApiKeyModalOpen false (handleApiKeySubmit (trim key) model a).

Section Orchestrator.

Variable R : Rules.
Variable J : Json.

(** Lines 381-392. chess.js boards are 8 by 8; a missing cell reads as empty. *)
Definition findKingSquare (fen : string) (c : Color) : option string :=
  let board := board R fen in
  first_some (fun i =>
    first_some (fun j =>
      match nth j (nth i board []) None with
      | Some piece =>
          if String.eqb (pc_type piece) "k" && Color_eqb (pc_color piece) c
          then Some (String (ascii_of_nat (97 + j)) EmptyString ++ show_nat (8 - i))
          else None
      | None => None
      end) (seq 0 8)) (seq 0 8).

(** Lines 307-378. *)
Definition checkGameStatus (fen : string) : PartialGameState :=
  if isCheckmate R fen then
    {| p_fen := None; p_isPlayerTurn := None;
       p_gameStatus := Some ended;
       p_result := Some (Some (match turn R fen with White => ai | Black => player end));
       p_resultReason := Some (Some by_checkmate);
       p_inCheck := Some true;
       p_checkSquare := Some (findKingSquare fen (turn R fen)) |}
  else
    let drawn reason :=
      {| p_fen := None; p_isPlayerTurn := None;
         p_gameStatus := Some ended;
         p_result := Some (Some draw);
         p_resultReason := Some (Some reason);
         p_inCheck := Some false;
         p_checkSquare := Some None |} in
    if isStalemate R fen then drawn by_stalemate
    else if isInsufficientMaterial R fen then drawn by_insufficient
    else if isThreefoldRepetition R fen then drawn by_repetition
    else if isDraw R fen then drawn by_fifty_move
    else if isCheck R fen then
      {| p_fen := None; p_isPlayerTurn := None;
         p_gameStatus := Some playing;
         p_result := None; p_resultReason := None;
         p_inCheck := Some true;
         p_checkSquare := Some (findKingSquare fen (turn R fen)) |}
    else
      {| p_fen := None; p_isPlayerTurn := None;
         p_gameStatus := Some playing;
         p_result := None; p_resultReason := None;
         p_inCheck := Some false;
         p_checkSquare := Some None |}.

(** What [handleMove] leaves to happen later: the awaited [generateMove]
    call, with the arguments it was given, and the 800 ms timer, with the
    values its callback closes over. *)
Inductive Task :=
| AwaitGenerateMove (newFen : string) (history : list ChessMove) (key model : string)
| AwaitTimeout (aiMove : GeneratedMove) (statusAfterAIMove : PartialGameState).

Definition human_entry (newFen : string) (mv : Move) : ChessMove :=
  {| cm_san := m_san mv; cm_player := You; cm_fen := newFen;
     cm_piece := m_piece mv; cm_from := m_from mv; cm_to := m_to mv;
     cm_captured := m_captured mv;
     cm_check := includes (m_san mv) "+";
     cm_checkmate := includes (m_san mv) "#";
     cm_reasoning := None |}.

Definition ai_entry (aiMove : GeneratedMove) (mv : Move) : ChessMove :=
  {| cm_san := m_san mv; cm_player := AI; cm_fen := gm_fen aiMove;
     cm_piece := m_piece mv; cm_from := m_from mv; cm_to := m_to mv;
     cm_captured := m_captured mv;
     cm_check := includes (m_san mv) "+";
     cm_checkmate := includes (m_san mv) "#";
     cm_reasoning := Some (gm_reasoning aiMove) |}.

Definition with_fen_turn (newFen : string) (playerTurn : bool) : PartialGameState :=
  {| p_fen := Some newFen; p_isPlayerTurn := Some playerTurn; p_gameStatus := None;
     p_result := None; p_resultReason := None; p_inCheck := None; p_checkSquare := None |}.

(** Lines 395-440: [handleMove] up to its [await]. [moveHistory], [apiKey]
    and [selectedModel] are the values of the render the handler belongs
    to, while the updaters work on the state at the time they are applied;
    the handler is the one of the latest render, so both are read from [a]. *)
Definition handleMove (a : App) (newFen : string) (mv : Move) : App * option Task :=
  let statusAfterPlayerMove := checkGameStatus newFen in
  let a1 :=
    setMoveHistory (fun prev => (prev ++ [human_entry newFen mv])%list)
      (setGameState
         (fun prev => spread (spread prev (with_fen_turn newFen false)) statusAfterPlayerMove)
         (loadChessRef newFen a)) in
  match p_gameStatus statusAfterPlayerMove with
  | Some ended => (a1, None)
  | _ =>
      (setIsThinking true a1,
       Some (AwaitGenerateMove newFen (moveHistory a) (apiKey a) (selectedModel a)))
  end.

(** Lines 441-491: [handleMove] when the awaited call has settled. *)
Definition handleMove_settled (a : App) (settled : Outcome GeneratedMove)
  : App * option Task :=
  match settled with
  | Returned aiMove =>
      (loadChessRef (gm_fen aiMove) a,
       Some (AwaitTimeout aiMove (checkGameStatus (gm_fen aiMove))))
  | Thrown error =>
      let a1 := setIsThinking false a in
      (if isAuthError error then setIsApiKeyModalOpen true a1 else a1, None)
  end.

(** Lines 449-475: the timer's callback. With [aiMove.move] null, reading
    [aiMove.move.san] throws a TypeError and no state results. *)
Definition handleMove_timeout (a : App) (aiMove : GeneratedMove)
    (statusAfterAIMove : PartialGameState) : option App :=
  match gm_move aiMove with
  | None => None
  | Some mv =>
      Some (setIsThinking false
              (setMoveHistory (fun prev => (prev ++ [ai_entry aiMove mv])%list)
                 (setGameState
                    (fun prev => spread (spread prev (with_fen_turn (gm_fen aiMove) true))
                                        statusAfterAIMove)
                    a)))
  end.

Definition time_out (winner : GameResult) : PartialGameState :=
  {| p_fen := None; p_isPlayerTurn := None; p_gameStatus := Some ended;
     p_result := Some (Some winner); p_resultReason := Some (Some by_time);
     p_inCheck := None; p_checkSquare := None |}.

(** Lines 495-539: one firing of the interval the timer effect installs.
    There is an interval only while the game is being played, the player's
    or the model's according to the turn. *)
Definition tick (a : App) : App :=
  match gameStatus (gameState a) with
  | playing =>
      if isPlayerTurn (gameState a) then
        if (playerTime a <=? 0)%Z then
          setPlayerTime 0 (setGameState (fun prev => spread prev (time_out ai)) a)
        else setPlayerTime (playerTime a - 1) a
      else
        if (aiTime a <=? 0)%Z then
          setAiTime 0 (setGameState (fun prev => spread prev (time_out player)) a)
        else setAiTime (aiTime a - 1) a
  | _ => a
  end.

(** The component together with what it is waiting for. *)
Record World := mkWorld { app : App; tasks : list Task }.

Definition initial : World := {| app := initial_app; tasks := [] |}.

Definition add_task (t : option Task) (l : list Task) : list Task :=
  match t with Some x => (l ++ [x])%list | None => l end.

Fixpoint remove_nth {A} (i : nat) (l : list A) : list A :=
  match i, l with
  | _, [] => []
  | O, _ :: rest => rest
  | S k, x :: rest => x :: remove_nth k rest
  end.

(** [ChessBoard.onDrop] ([src/components/game-timer.tsx], lines 131-157),
    with the props [ChessGame] passes (lines 665-673): [game] is a chess.js
    instance on [gameState.fen], [isPlayerTurn] is
    [gameState.isPlayerTurn && gameState.gameStatus === "playing"] and
    [onMove] is [handleMove]. The boolean is what [onDrop] returns. *)
Definition onDrop (wd : World) (sourceSquare targetSquare : string) : bool * World :=
  let g := gameState (app wd) in
  if negb (isPlayerTurn g && GameStatus_eqb (gameStatus g) playing) then (false, wd)
  else
    match move R (fen g) {| rq_from := sourceSquare; rq_to := targetSquare;
                            rq_promotion := Some "q" |} with
    | Applied mv newFen =>
        let (a', t) := handleMove (app wd) newFen mv in
        (true, {| app := a'; tasks := add_task t (tasks wd) |})
    | MoveNull => (false, wd)
    | MoveThrows _ => (false, wd)
    end.

(** What happens to the component. *)
Inductive Event :=
| ClickStart                                        (* Start Game / Restart Game *)
| SubmitKey (key model : string)                    (* the key dialog's form *)
| PieceDrop (sourceSquare targetSquare : string)
| Tick
| Settle (i : nat) (service : string -> string -> Completion) (r : Rand)
| Fire (i : nat)
| KeyDialog (opened : bool).                        (* the key button, the dialog's close *)

(** One event; [None] when the event cannot happen in this world or the
    component fails on it. *)
Definition step (ev : Event) (wd : World) : option World :=
  match ev with
  | ClickStart => Some {| app := startGame (app wd); tasks := tasks wd |}
  | SubmitKey key model => Some {| app := handleSubmit key model (app wd); tasks := tasks wd |}
  | PieceDrop s t => Some (snd (onDrop wd s t))
  | Tick => Some {| app := tick (app wd); tasks := tasks wd |}
  | Settle i service r =>
      match nth_error (tasks wd) i with
      | Some (AwaitGenerateMove newFen history key model) =>
          let settled := run (generateMove R J newFen history key model) service r in
          let (a', t) := handleMove_settled (app wd) settled in
          Some {| app := a'; tasks := add_task t (remove_nth i (tasks wd)) |}
      | _ => None
      end
  | Fire i =>
      match nth_error (tasks wd) i with
      | Some (AwaitTimeout aiMove statusAfterAIMove) =>
          match handleMove_timeout (app wd) aiMove statusAfterAIMove with
          | Some a' => Some {| app := a'; tasks := remove_nth i (tasks wd) |}
          | None => None
          end
      | _ => None
      end
  | KeyDialog opened =>
      Some {| app := setIsApiKeyModalOpen opened (app wd); tasks := tasks wd |}
  end.

Fixpoint steps (evs : list Event) (wd : World) : option World :=
  match evs with
  | [] => Some wd
  | ev :: rest => match step ev wd with Some wd' => steps rest wd' | None => None end
  end.

Inductive reachable : World -> Prop :=
| reachable_initial : reachable initial
| reachable_step : forall wd ev wd', reachable wd -> step ev wd = Some wd' -> reachable wd'.

End Orchestrator.

(* ================================================================== *)
(** ** What the code relies on in chess.js *)

(** A move [chess.move] makes is one of the legal moves of the position,
    with the squares asked for. *)
Definition applied_legal (R : Rules) : Prop :=
  forall fen rq m fen',
    move R fen rq = Applied m fen' ->
    In m (moves R fen) /\ m_from m = rq_from rq /\ m_to m = rq_to rq.

(** A refused move is reported by an exception, never by [null]. *)
Definition refusal_throws (R : Rules) : Prop :=
  forall fen rq, move R fen rq <> MoveNull.

(** A legal move, handed back to [chess.move], is made. *)
Definition legal_applied (R : Rules) : Prop :=
  forall fen m, In m (moves R fen) ->
    exists m' fen', move R fen (request_of m) = Applied m' fen'.

(** Making a move passes the turn, and White begins. *)
Definition turn_passes (R : Rules) : Prop :=
  turn R start_fen = White /\
  forall fen rq m fen', move R fen rq = Applied m fen' -> turn R fen' <> turn R fen.

(** The side in check has its king on the board. *)
Definition king_present (R : Rules) : Prop :=
  forall fen, isCheck R fen = true \/ isCheckmate R fen = true ->
    findKingSquare R fen (turn R fen) <> None.

(* ================================================================== *)
(** ** A scripted engine for concrete runs

    It knows the positions of a book and, in each, the listed moves; the
    side to move and the board are read off the FEN. *)

Module Scripted.

Record Position := mkPosition {
  pos_fen : string;
  pos_moves : list (Move * string);
  pos_check : bool;
  pos_mate : bool
}.

Fixpoint lookup (book : list Position) (fen : string) : option Position :=
  match book with
  | [] => None
  | p :: rest => if String.eqb (pos_fen p) fen then Some p else lookup rest fen
  end.

Definition moves_at (book : list Position) (fen : string) : list (Move * string) :=
  match lookup book fen with Some p => pos_moves p | None => [] end.

Definition answers (rq : MoveRequest) (m : Move) : bool :=
  String.eqb (m_from m) (rq_from rq) && String.eqb (m_to m) (rq_to rq)
  && match m_promotion m, rq_promotion rq with
     | None, _ => true
     | Some x, Some y => String.eqb x y
     | Some _, None => false
     end.

(** the side to move: the FEN's second field *)
Fixpoint side_to_move (fen : string) : Color :=
  match fen with
  | String " " (String "b" _) => Black
  | String " " _ => White
  | String _ rest => side_to_move rest
  | EmptyString => White
  end.

Definition piece_of (c : ascii) : Piece :=
  let n := nat_of_ascii c in
  if Nat.leb 97 n then mkPiece (String c EmptyString) Black
  else mkPiece (String (ascii_of_nat (n + 32)) EmptyString) White.

(** the board: the FEN's first field, rank 8 first *)
Fixpoint rows_of (fen : string) (row : list (option Piece)) : list (list (option Piece)) :=
  match fen with
  | EmptyString => [row]
  | String c rest =>
      let n := nat_of_ascii c in
      if Nat.eqb n 32 then [row]
      else if Nat.eqb n 47 then row :: rows_of rest []
      else if Nat.leb 49 n && Nat.leb n 56 then rows_of rest (row ++ repeat None (n - 48))%list
      else rows_of rest (row ++ [Some (piece_of c)])%list
  end.

Definition engine (book : list Position) : Rules :=
  {| moves := fun fen => map fst (moves_at book fen);
     move := fun fen rq =>
       match find (fun mf => answers rq (fst mf)) (moves_at book fen) with
       | Some (m, fen') => Applied m fen'
       | None => MoveThrows "Invalid move"
       end;
     isCheck := fun fen =>
       match lookup book fen with Some p => pos_check p | None => false end;
     isCheckmate := fun fen =>
       match lookup book fen with Some p => pos_mate p | None => false end;
     isStalemate := fun _ => false;
     isInsufficientMaterial := fun _ => false;
     isThreefoldRepetition := fun _ => false;
     isDraw := fun _ => false;
     turn := side_to_move;
     board := fun fen => rows_of fen [] |}.

(** every move of the book leads to a position of the other side *)
Definition alternates (book : list Position) : bool :=
  forallb (fun p =>
    forallb (fun mf => negb (Color_eqb (side_to_move (snd mf)) (side_to_move (pos_fen p))))
            (pos_moves p)) book.

(** every position of the book that is in check shows the king *)
Definition kings_shown (book : list Position) : bool :=
  forallb (fun p =>
    implb (pos_check p || pos_mate p)
          (match findKingSquare (engine []) (pos_fen p) (side_to_move (pos_fen p)) with
           | Some _ => true
           | None => false
           end)) book.

Definition quiet (from_ to_ piece_ san_ : string) : Move :=
  {| m_from := from_; m_to := to_; m_promotion := None; m_piece := piece_;
     m_captured := None; m_san := san_ |}.

(** Two short games: 1. f3 e5 2. g4 Qh4 mate, and 1. e4 g5 2. Nc3 f6
    3. Qh5 mate. *)
Definition f3 : string := "rnbqkbnr/pppppppp/8/8/8/5P2/PPPPP1PP/RNBQKBNR b KQkq - 0 1".
Definition f3_e5 : string := "rnbqkbnr/pppp1ppp/8/4p3/8/5P2/PPPPP1PP/RNBQKBNR w KQkq - 0 2".
Definition f3_e5_g4 : string :=
  "rnbqkbnr/pppp1ppp/8/4p3/6P1/5P2/PPPPP2P/RNBQKBNR b KQkq - 0 2".
Definition fools_mate : string :=
  "rnb1kbnr/pppp1ppp/8/4p3/6Pq/5P2/PPPPP2P/RNBQKBNR w KQkq - 1 3".
Definition f3_e5_g4_Nc6 : string :=
  "r1bqkbnr/pppp1ppp/2n5/4p3/6P1/5P2/PPPPP2P/RNBQKBNR w KQkq - 1 3".
Definition e4 : string := "rnbqkbnr/pppppppp/8/8/4P3/8/PPPP1PPP/RNBQKBNR b KQkq - 0 1".
Definition e4_g5 : string := "rnbqkbnr/pppppp1p/8/6p1/4P3/8/PPPP1PPP/RNBQKBNR w KQkq - 0 2".
Definition e4_g5_Nc3 : string :=
  "rnbqkbnr/pppppp1p/8/6p1/4P3/2N5/PPPP1PPP/R1BQKBNR b KQkq - 1 2".
Definition e4_g5_Nc3_f6 : string :=
  "rnbqkbnr/ppppp2p/5p2/6p1/4P3/2N5/PPPP1PPP/R1BQKBNR w KQkq - 0 3".
Definition queen_mate : string :=
  "rnbqkbnr/ppppp2p/5p2/6pQ/4P3/2N5/PPPP1PPP/R1B1KBNR b KQkq - 1 3".

Definition book : list Position :=
  [ mkPosition start_fen
      [(quiet "f2" "f3" "p" "f3", f3); (quiet "e2" "e4" "p" "e4", e4)] false false;
    mkPosition f3 [(quiet "e7" "e5" "p" "e5", f3_e5)] false false;
    mkPosition f3_e5 [(quiet "g2" "g4" "p" "g4", f3_e5_g4)] false false;
    mkPosition f3_e5_g4
      [(quiet "d8" "h4" "q" "Qh4#", fools_mate);
       (quiet "b8" "c6" "n" "Nc6", f3_e5_g4_Nc6)] false false;
    mkPosition fools_mate [] true true;
    mkPosition f3_e5_g4_Nc6 [] false false;
    mkPosition e4 [(quiet "g7" "g5" "p" "g5", e4_g5)] false false;
    mkPosition e4_g5 [(quiet "b1" "c3" "n" "Nc3", e4_g5_Nc3)] false false;
    mkPosition e4_g5_Nc3 [(quiet "f7" "f6" "p" "f6", e4_g5_Nc3_f6)] false false;
    mkPosition e4_g5_Nc3_f6 [(quiet "d1" "h5" "q" "Qh5#", queen_mate)] false false;
    mkPosition queen_mate [] true true ].

Definition chess : Rules := engine book.

(** A stand-in for the JSON functions: it reads answers of the shape
    [from-to: reasoning] and prints the moves' notations. *)
Definition parse (text : string) : ParseOutcome :=
  match index 0 ": " text with
  | Some 5 =>
      Parsed {| r_from := substring 0 2 text; r_to := substring 3 2 text;
                r_promotion := None;
                r_reasoning := substring 7 (String.length text - 7) text |}
  | _ => ParseFails (mkError "SyntaxError" "Unexpected token in JSON at position 0")
  end.

Definition json : Json :=
  {| parseMoveResponse := parse;
     stringifyMoves := fun l => "[" ++ join ", " (map f_san l) ++ "]" |}.

End Scripted.

(* ================================================================== *)
(** ** Notions the statements use *)

(** The commentary as the specification words it: the piece kinds of the
    human's moves in the window are counted, a kind is named once it occurs
    at least twice, the pawn before the knight before the bishop, and the
    generic label is used otherwise. *)
Definition kind_count (kind : string) (recentMoves : list ChessMove) : nat :=
  count_occ string_dec (map cm_piece (human_moves recentMoves)) kind.

Definition tendency_by_kind (recentMoves : list ChessMove) : string :=
  "The human player tends to favor " ++
  (if (2 <=? kind_count "p" recentMoves)%nat then "pawn moves"
   else if (2 <=? kind_count "n" recentMoves)%nat then "knight development"
   else if (2 <=? kind_count "b" recentMoves)%nat then "bishop development"
   else "piece development").

(** A half-move being applied to the game state: the human's, by an accepted
    drop, or the model's, by the timer that follows its answer. *)
Inductive half_move (R : Rules) (J : Json) : World -> GameResult -> World -> Prop :=
| human_half_move : forall wd s t wd',
    onDrop R wd s t = (true, wd') -> half_move R J wd player wd'
| model_half_move : forall wd i wd',
    step R J (Fire i) wd = Some wd' -> half_move R J wd ai wd'.

(** The human has White: while it is the human's turn White is to move, a
    position sent to the model has Black to move and an answer waiting for
    its timer has White to move, with the status computed from it. *)
Definition task_sides (R : Rules) (t : Task) : Prop :=
  match t with
  | AwaitGenerateMove newFen _ _ _ => turn R newFen = Black
  | AwaitTimeout aiMove st =>
      turn R (gm_fen aiMove) = White /\ st = checkGameStatus R (gm_fen aiMove)
  end.

Definition sides_agree (R : Rules) (wd : World) : Prop :=
  (isPlayerTurn (gameState (app wd)) = true -> turn R (fen (gameState (app wd))) = White)
  /\ Forall (task_sides R) (tasks wd).

(** The part of the data model's invariant that survives every transition. *)
Definition status_sound (g : GameState) : Prop :=
  (gameStatus g = ended -> result g <> None)
  /\ (checkSquare g <> None <-> inCheck g = true).

Definition task_status (R : Rules) (t : Task) : Prop :=
  match t with
  | AwaitGenerateMove _ _ _ _ => True
  | AwaitTimeout aiMove st => st = checkGameStatus R (gm_fen aiMove)
  end.

Definition status_inv (R : Rules) (wd : World) : Prop :=
  status_sound (gameState (app wd)) /\ Forall (task_status R) (tasks wd).

(** The state a half-move leaves: the given position and turn, the status
    fields as [checkGameStatus] computed them. *)
Definition merged (R : Rules) (g : GameState) (f : string) (playerTurn : bool) (f' : string)
  : GameState :=
  spread (spread g (with_fen_turn f playerTurn)) (checkGameStatus R f').

(** Concrete runs on the scripted engine. *)
Module Run.
Import Scripted.

Definition draw_ : Rand := mkRand 1 2.

Definition answers_e5 : string -> string -> Completion :=
  fun _ _ => Text "e7-e5: takes the centre".

Definition answers_Qh4 : string -> string -> Completion :=
  fun _ _ => Text "d8-h4: mate".

Definition unauthorized : string -> string -> Completion :=
  fun _ _ => Failed (Error "401 Unauthorized").

Definition unreachable : string -> string -> Completion :=
  fun _ _ => Failed (Error "fetch failed").

Definition opening : list Event :=
  [SubmitKey "sk-test" "gpt-4o"; ClickStart; PieceDrop "f2" "f3"].

(** the model's clock runs out while its answer is awaited *)
Definition flag_falls : list Event := (opening ++ repeat Tick 601)%list.

Definition e4_by_you : ChessMove := human_entry e4 (quiet "e2" "e4" "p" "e4").

Definition e5_by_ai : ChessMove :=
  ai_entry (mkGenerated "rnbqkbnr/pppp1ppp/8/4p3/4P3/8/PPPP1PPP/RNBQKBNR w KQkq - 0 2"
              None "takes the centre")
           (quiet "e7" "e5" "p" "e5").

Definition answers_g5 : string -> string -> Completion :=
  fun _ _ => Text "g7-g5: space on the wing".

Definition answers_f6 : string -> string -> Completion :=
  fun _ _ => Text "f7-f6: supports g5".

Definition world_after (evs : list Event) : World :=
  match steps chess json evs initial with Some wd => wd | None => initial end.

(** the game has just been started *)
Definition started : World :=
  Eval vm_compute in world_after [SubmitKey "sk-test" "gpt-4o"; ClickStart].

(** 1. f3, the model to move *)
Definition after_f3 : World := Eval vm_compute in world_after opening.

(** 1. f3 e5 2. g4 and the model's Qh4 waiting for its timer *)
Definition before_Qh4 : World :=
  Eval vm_compute in
    world_after (opening ++ [Settle 0 answers_e5 draw_; Fire 0; PieceDrop "g2" "g4";
                             Settle 0 answers_Qh4 draw_])%list.

(** 1. e4 g5 2. Nc3 f6, the human to move *)
Definition before_Qh5 : World :=
  Eval vm_compute in
    world_after [SubmitKey "sk-test" "gpt-4o"; ClickStart; PieceDrop "e2" "e4";
                 Settle 0 answers_g5 draw_; Fire 0; PieceDrop "b1" "c3";
                 Settle 0 answers_f6 draw_; Fire 0].

(** 1. f3, and the model's clock has run out before it answered *)
Definition flag_fallen : World := Eval vm_compute in world_after flag_falls.

Definition e5_generated : GeneratedMove :=
  {| gm_fen := f3_e5; gm_move := Some (quiet "e7" "e5" "p" "e5");
     gm_reasoning := "takes the centre" |}.

(** ... and the model's answer e5 has been applied all the same *)
Definition late_answer : list Event :=
  (flag_falls ++ [Settle 0 answers_e5 draw_; Fire 0])%list.

Definition revived : World := Eval vm_compute in world_after late_answer.

Definition to_Qh4 : list Event :=
  (opening ++ [Settle 0 answers_e5 draw_; Fire 0; PieceDrop "g2" "g4";
               Settle 0 answers_Qh4 draw_])%list.

Definition to_Qh5 : list Event :=
  [SubmitKey "sk-test" "gpt-4o"; ClickStart; PieceDrop "e2" "e4";
   Settle 0 answers_g5 draw_; Fire 0; PieceDrop "b1" "c3";
   Settle 0 answers_f6 draw_; Fire 0].

(** the human's clock runs down to zero *)
Definition player_clock_runs_down : list Event :=
  ([SubmitKey "sk-test" "gpt-4o"; ClickStart] ++ repeat Tick 600)%list.

End Run.

(* ================================================================== *)
(** ** What the component displays *)

Fixpoint repeat_char (c : ascii) (n : nat) : string :=
  match n with
  | O => EmptyString
  | S k => String c (repeat_char c k)
  end.

(** [s.padStart(n, c)] with a pad string of one character *)
Definition padStart (n : nat) (c : ascii) (s : string) : string :=
  repeat_char c (n - String.length s) ++ s.

(** [GameTimer]'s [formatTime] ([src/components/game-timer.tsx], lines
    11-17), on the whole, non-negative seconds the clocks hold. *)
Definition formatTime (totalSeconds : nat) : string :=
  let minutes := totalSeconds / 60 in
  let seconds := totalSeconds mod 60 in
  padStart 2 "0"%char (show_nat minutes) ++ ":" ++ padStart 2 "0"%char (show_nat seconds).

(** [getResultMessage] ([src/lib/chess-ai.ts], lines 542-565). *)
Definition getResultMessage (g : GameState) : string :=
  match result g with
  | Some player =>
      match resultReason g with
      | Some by_checkmate => "Checkmate! You won!"
      | Some by_time => "AI ran out of time. You won!"
      | _ => "You won!"
      end
  | Some ai =>
      match resultReason g with
      | Some by_checkmate => "Checkmate! AI won!"
      | Some by_time => "You ran out of time. AI won!"
      | _ => "AI won!"
      end
  | Some draw =>
      match resultReason g with
      | Some by_stalemate => "Stalemate! The game is a draw."
      | Some by_insufficient => "Insufficient material. The game is a draw."
      | Some by_repetition => "Threefold repetition. The game is a draw."
      | Some by_fifty_move => "Fifty-move rule. The game is a draw."
      | _ => "The game ended in a draw."
      end
  | None => EmptyString
  end.

(** Lines 758-770: the line under the result message. *)
Definition resultDetail (g : GameState) : string :=
  match resultReason g with
  | Some by_checkmate => "The king has been checkmated."
  | Some by_stalemate => "No legal moves available, but not in check."
  | Some by_time => "A player ran out of time."
  | Some by_insufficient => "Not enough pieces to force checkmate."
  | Some by_repetition => "Same position occurred three times."
  | Some by_fifty_move => "50 moves without a pawn move or capture."
  | _ => "The game has ended."
  end.

(** Lines 845-847: the reasoning as the move list shows it. *)
Definition shownReasoning (reasoning : string) : string :=
  if (100 <? String.length reasoning)%nat
  then substring 0 100 reasoning ++ "..."
  else reasoning.

(** Line 817: the number the move list gives the entry at [index]. *)
Definition listNumber (index : nat) : nat := index / 2 + 1.

(** Lines 54-56: the number the prompt gives the window's entry at [index]. *)
Definition promptNumber (moveHistory : list ChessMove) (index : nat) : nat :=
  index / 2 + (length moveHistory - length (recentMovesOf moveHistory)) / 2 + 1.

(** [n] firings of the timer with nothing else happening in between. *)
Definition ticks (n : nat) (a : App) : App := Nat.iter n tick a.

(** Reading a displayed time back. *)
Definition read_nat (s : string) : option nat :=
  option_map Nat.of_uint (NilEmpty.uint_of_string s).

Definition readTime (s : string) : option nat :=
  match index 0 ":" s with
  | Some i =>
      match read_nat (substring 0 i s),
            read_nat (substring (S i) (String.length s - S i) s) with
      | Some m, Some sec => Some (m * 60 + sec)
      | _, _ => None
      end
  | None => None
  end.

(** The results and the reasons that go together. *)
Definition result_matches_reason (res : option GameResult) (reason : option ResultReason)
  : bool :=
  match res, reason with
  | None, None => true
  | Some player, Some by_checkmate | Some player, Some by_time => true
  | Some ai, Some by_checkmate | Some ai, Some by_time => true
  | Some draw, Some by_stalemate | Some draw, Some by_insufficient => true
  | Some draw, Some by_repetition | Some draw, Some by_fifty_move => true
  | _, _ => false
  end.

Definition task_key_ok (t : Task) : Prop :=
  match t with
  | AwaitGenerateMove _ _ key _ => startsWith key "sk-" = true
  | AwaitTimeout _ _ => True
  end.

(** What holds of the component and of its pending work in every world
    the events can lead to. *)
Record well_formed (R : Rules) (wd : World) : Prop := mkWellFormed {
  wf_waiting :
    gameStatus (gameState (app wd)) = waiting ->
    tasks wd = [] /\ result (gameState (app wd)) = None;
  wf_key :
    gameStatus (gameState (app wd)) <> waiting -> truthy (apiKey (app wd)) = true;
  wf_prefix :
    apiKey (app wd) = EmptyString \/ startsWith (apiKey (app wd)) "sk-" = true;
  wf_task_keys : Forall task_key_ok (tasks wd);
  wf_task_status : Forall (task_status R) (tasks wd);
  wf_clock :
    (0 <= playerTime (app wd) <= 600)%Z /\ (0 <= aiTime (app wd) <= 600)%Z;
  wf_result :
    result_matches_reason (result (gameState (app wd)))
                          (resultReason (gameState (app wd))) = true;
  wf_ended :
    gameStatus (gameState (app wd)) = ended -> result (gameState (app wd)) <> None;
  wf_thinking : isThinking (app wd) = true -> tasks wd <> []
}.

(* ================================================================== *)
(** ** [generateMove]: what it returns and when it throws *)

Section GenerateMoveFacts.

Variable R : Rules.
Variable J : Json.

Lemma fallback_returned fen legalMoves service r res :
  run (fallback R fen legalMoves) service r = Returned res ->
  exists m, gm_move res = Some m /\ In m legalMoves
            /\ gm_reasoning res = fallback_reasoning
            /\ (move R fen (request_of m) = MoveNull /\ gm_fen res = fen
                \/ exists m0, move R fen (request_of m) = Applied m0 (gm_fen res)).
Proof.
  unfold fallback. destruct (0 <? length legalMoves)%nat; simpl; [|discriminate].
  destruct (nth_error legalMoves (random_index r (length legalMoves))) as [m|] eqn:Hnth;
    simpl; [|discriminate].
  apply nth_error_In in Hnth.
  destruct (move R fen (request_of m)) as [m0 fen'| |msg] eqn:Hmove; simpl;
    intros H; inversion H; subst; clear H; simpl.
  - exists m. repeat split; auto. right. now exists m0.
  - exists m. repeat split; auto.
Qed.

Lemma attempt_returned fen c res :
  attempt R J fen c = inl res ->
  exists rq, (move R fen rq = MoveNull /\ gm_move res = None /\ gm_fen res = fen)
             \/ exists m, move R fen rq = Applied m (gm_fen res) /\ gm_move res = Some m.
Proof.
  unfold attempt. destruct c as [text|e]; [|discriminate].
  destruct (parseMoveResponse J text) as [p|e]; [|discriminate].
  match goal with |- context [move R fen ?q] => set (rq := q) end.
  destruct (move R fen rq) as [m fen'| |msg] eqn:Hmove; intros H; inversion H; subst; clear H.
  - exists rq. right. exists m. now split.
  - exists rq. left. now repeat split.
Qed.

(** Whatever [generateMove] returns was produced by [chess.move] on the
    input position, once refusals are exceptions. *)
Lemma generateMove_returned fen hist key model service r res :
  refusal_throws R ->
  run (generateMove R J fen hist key model) service r = Returned res ->
  exists rq m0 m,
    move R fen rq = Applied m0 (gm_fen res)
    /\ gm_move res = Some m
    /\ (m = m0 \/ In m (moves R fen)).
Proof.
  intros Hthrows. unfold generateMove.
  destruct (negb (truthy key)); [discriminate|].
  destruct (length (moves R fen) =? 0)%nat; [discriminate|].
  simpl. destruct (attempt R J fen (service model _)) as [g|e] eqn:Hatt; simpl.
  - intros H; inversion H; subst; clear H.
    destruct (attempt_returned _ _ Hatt) as [rq [[Hnull _]|[m [Hm Hres]]]].
    + now apply Hthrows in Hnull.
    + exists rq, m, m. auto.
  - unfold on_error. destruct (isAuthError e); [discriminate|].
    intros H. destruct (fallback_returned _ _ _ _ H) as [m [Hm [Hin [_ [[Hnull _]|[m0 Hm0]]]]]].
    + now apply Hthrows in Hnull.
    + exists (request_of m), m0, m. auto.
Qed.

(** C1. Every result [generateMove] returns, whether it validated the
    model's answer or fell back to a random move, carries a move of the
    legal-move set computed from the input FEN before the request was
    composed (chess.js refusing a move by an exception, and returning only
    legal moves). *)
Theorem generateMove_move_is_legal fen hist key model service r res :
  refusal_throws R ->
  applied_legal R ->
  run (generateMove R J fen hist key model) service r = Returned res ->
  exists m, gm_move res = Some m /\ In m (moves R fen).
Proof.
  intros Hthrows Hlegal Hrun.
  destruct (generateMove_returned _ _ _ _ _ _ Hthrows Hrun)
    as [rq [m0 [m [Hmove [Hres [Heq|Hin]]]]]]; exists m; split; auto.
  subst m0. now apply Hlegal in Hmove.
Qed.

(** C10, as amended. On a FEN without legal moves [generateMove] is a bare
    [throw]: it never returns, sends no request and draws no random move.
    The error is "No legal moves available" when an API key is given, and
    "OpenAI API key is required", from the guard that comes first, when
    the key is empty. *)
Theorem generateMove_without_legal_moves fen hist key model :
  moves R fen = [] ->
  (exists e, generateMove R J fen hist key model = Throw e)
  /\ no_request (generateMove R J fen hist key model)
  /\ (forall service r res,
        run (generateMove R J fen hist key model) service r <> Returned res)
  /\ (key <> EmptyString ->
      generateMove R J fen hist key model = Throw (Error "No legal moves available"))
  /\ (key = EmptyString ->
      generateMove R J fen hist key model = Throw (Error "OpenAI API key is required")).
Proof.
  intros Hnone. unfold generateMove. rewrite Hnone. simpl.
  destruct key as [|c key']; simpl.
  - split; [eauto | split; [exact I | split; [discriminate | split]]].
    + intros H; now elim H.
    + reflexivity.
  - split; [eauto | split; [exact I | split; [discriminate | split]]].
    + reflexivity.
    + discriminate.
Qed.

End GenerateMoveFacts.

(* ================================================================== *)
(** ** The scripted engine keeps to the chess.js contract *)

Module ScriptedFacts.
Import Scripted.

Lemma lookup_some book fen p :
  lookup book fen = Some p -> In p book /\ pos_fen p = fen.
Proof.
  induction book as [|q rest IH]; simpl; [discriminate|].
  destruct (String.eqb (pos_fen q) fen) eqn:E.
  - intros H; inversion H; subst. apply String.eqb_eq in E. auto.
  - intros H. destruct (IH H). auto.
Qed.

Lemma answers_request_of m : answers (request_of m) m = true.
Proof.
  unfold answers, request_of; simpl. rewrite !String.eqb_refl. simpl.
  destruct (m_promotion m); [apply String.eqb_refl | reflexivity].
Qed.

Lemma engine_refusal_throws book : refusal_throws (engine book).
Proof.
  intros fen rq. simpl.
  destruct (find _ (moves_at book fen)) as [[m fen']|]; discriminate.
Qed.

Lemma engine_applied_legal book : applied_legal (engine book).
Proof.
  intros fen rq m fen'. simpl.
  destruct (find _ (moves_at book fen)) as [[m1 fen1]|] eqn:Hfind; [|discriminate].
  intros H; inversion H; subst; clear H.
  apply find_some in Hfind. destruct Hfind as [Hin Hans]. simpl in Hans.
  unfold answers in Hans.
  apply andb_prop in Hans. destruct Hans as [Hans _].
  apply andb_prop in Hans. destruct Hans as [Hfrom Hto].
  apply String.eqb_eq in Hfrom. apply String.eqb_eq in Hto.
  repeat split; auto.
  change m with (fst (m, fen')). now apply in_map.
Qed.

Lemma engine_legal_applied book : legal_applied (engine book).
Proof.
  intros fen m Hin. simpl in *.
  apply in_map_iff in Hin. destruct Hin as [[m1 fen1] [Hfst Hin]]. simpl in Hfst. subst m1.
  destruct (find (fun mf => answers (request_of m) (fst mf)) (moves_at book fen))
    as [[m' fen']|] eqn:Hfind.
  - now exists m', fen'.
  - exfalso. apply find_none with (x := (m, fen1)) in Hfind; auto.
    simpl in Hfind. now rewrite answers_request_of in Hfind.
Qed.

Lemma engine_turn_passes book :
  alternates book = true -> side_to_move start_fen = White -> turn_passes (engine book).
Proof.
  intros Halt Hstart. split; [exact Hstart|].
  intros fen rq m fen'. simpl.
  destruct (find _ (moves_at book fen)) as [[m1 fen1]|] eqn:Hfind; [|discriminate].
  intros H; inversion H; subst; clear H.
  apply find_some in Hfind. destruct Hfind as [Hin _].
  unfold moves_at in Hin. destruct (lookup book fen) as [p|] eqn:Hlook; [|contradiction].
  apply lookup_some in Hlook. destruct Hlook as [Hp Hfen]. subst fen.
  unfold alternates in Halt. rewrite forallb_forall in Halt.
  specialize (Halt p Hp). rewrite forallb_forall in Halt.
  specialize (Halt (m, fen') Hin). simpl in Halt.
  intros Heq. rewrite Heq in Halt.
  destruct (side_to_move (pos_fen p)); discriminate.
Qed.

Lemma engine_king_present book : kings_shown book = true -> king_present (engine book).
Proof.
  intros Hshown fen Hcheck.
  change (findKingSquare (engine book) fen (turn (engine book) fen))
    with (findKingSquare (engine []) fen (side_to_move fen)).
  simpl in Hcheck.
  destruct (lookup book fen) as [p|] eqn:Hlook.
  - apply lookup_some in Hlook. destruct Hlook as [Hp Hfen]. subst fen.
    unfold kings_shown in Hshown. rewrite forallb_forall in Hshown.
    specialize (Hshown p Hp).
    assert (Hflag : pos_check p || pos_mate p = true)
      by (destruct Hcheck as [H|H]; rewrite H; auto using orb_true_r).
    rewrite Hflag in Hshown. simpl in Hshown.
    destruct (findKingSquare (engine []) (pos_fen p) (side_to_move (pos_fen p)));
      [discriminate | discriminate].
  - destruct Hcheck; discriminate.
Qed.

Lemma chess_refusal_throws : refusal_throws chess.
Proof. apply engine_refusal_throws. Qed.

Lemma chess_applied_legal : applied_legal chess.
Proof. apply engine_applied_legal. Qed.

Lemma chess_legal_applied : legal_applied chess.
Proof. apply engine_legal_applied. Qed.

Lemma chess_turn_passes : turn_passes chess.
Proof. apply engine_turn_passes; reflexivity. Qed.

Lemma chess_king_present : king_present chess.
Proof. apply engine_king_present. reflexivity. Qed.

End ScriptedFacts.

Module GenerateMoveRuns.
Import Scripted ScriptedFacts Run.

Lemma generateMove_move_is_legal_witness :
  exists m,
    gm_move {| gm_fen := f3_e5; gm_move := Some (quiet "e7" "e5" "p" "e5");
               gm_reasoning := "takes the centre" |} = Some m
    /\ In m (moves chess f3).
Proof.
  apply (@generateMove_move_is_legal chess json f3 [] "sk-test" "gpt-4o" answers_e5 draw_).
  - exact chess_refusal_throws.
  - exact chess_applied_legal.
  - reflexivity.
Defined.

(** After fool's mate white has no legal move; asked for a move there
    with an empty key, [generateMove] throws the error of the key guard,
    not "No legal moves available". *)
Lemma empty_key_error_comes_first :
  moves chess fools_mate = []
  /\ generateMove chess json fools_mate [] EmptyString "gpt-4o"
     = Throw (Error "OpenAI API key is required")
  /\ generateMove chess json fools_mate [] EmptyString "gpt-4o"
     <> Throw (Error "No legal moves available").
Proof. split; [reflexivity|]. split; [reflexivity|discriminate]. Qed.

Lemma generateMove_without_legal_moves_witness :
  generateMove chess json fools_mate [] "sk-test" "gpt-4o"
  = Throw (Error "No legal moves available")
  /\ generateMove chess json fools_mate [] EmptyString "gpt-4o"
     = Throw (Error "OpenAI API key is required")
  /\ no_request (generateMove chess json fools_mate [] "sk-test" "gpt-4o").
Proof.
  split; [|split].
  - apply (@generateMove_without_legal_moves chess json fools_mate [] "sk-test" "gpt-4o").
    + reflexivity.
    + discriminate.
  - apply (@generateMove_without_legal_moves chess json fools_mate [] EmptyString "gpt-4o").
    + reflexivity.
    + reflexivity.
  - apply (@generateMove_without_legal_moves chess json fools_mate [] "sk-test" "gpt-4o").
    reflexivity.
Defined.

End GenerateMoveRuns.

(* ================================================================== *)
(** ** The prompt's commentary on the human's play *)

Lemma human_moves_of_count kind recentMoves :
  length (human_moves_of kind recentMoves) = kind_count kind recentMoves.
Proof.
  unfold human_moves_of, kind_count, human_moves.
  induction recentMoves as [|m rest IH]; simpl; [reflexivity|].
  destruct (cm_player m); simpl; [|exact IH].
  destruct (string_dec (cm_piece m) kind) as [Heq|Hne].
  - rewrite Heq, String.eqb_refl. simpl. now rewrite IH.
  - apply String.eqb_neq in Hne. rewrite Hne. exact IH.
Qed.

Lemma human_moves_length recentMoves :
  length (human_moves recentMoves) <= length recentMoves.
Proof. apply filter_length_le. Qed.

(** C8, as amended. With at least two human moves in the window the
    commentary names the favoured kind by counting, pawn before knight
    before bishop before the generic label; with fewer it is the
    "play aggressively" line (window of two or more) or the "early in the
    game" line (window of one). *)
Theorem tendency_cases recentMoves :
  (2 <= length (human_moves recentMoves) ->
     tendency recentMoves = tendency_by_kind recentMoves)
  /\ (length (human_moves recentMoves) < 2 -> 2 <= length recentMoves ->
     tendency recentMoves = "The human player tends to play aggressively")
  /\ (length recentMoves < 2 -> tendency recentMoves = "This is early in the game").
Proof.
  unfold tendency, tendency_by_kind.
  rewrite !human_moves_of_count.
  pose proof (human_moves_length recentMoves) as Hle.
  repeat split.
  - intros H2.
    assert (Hw : (2 <=? length recentMoves)%nat = true) by (apply Nat.leb_le; lia).
    assert (Hh : (2 <=? length (human_moves recentMoves))%nat = true)
      by now apply Nat.leb_le.
    rewrite Hw, Hh.
    destruct (2 <=? kind_count "p" recentMoves)%nat; [reflexivity|].
    destruct (2 <=? kind_count "n" recentMoves)%nat; [reflexivity|].
    destruct (2 <=? kind_count "b" recentMoves)%nat; reflexivity.
  - intros Hfew Hw.
    apply Nat.leb_le in Hw. rewrite Hw.
    assert (Hh : (2 <=? length (human_moves recentMoves))%nat = false)
      by (apply Nat.leb_gt; lia).
    now rewrite Hh.
  - intros Hw.
    assert (Hw' : (2 <=? length recentMoves)%nat = false) by (apply Nat.leb_gt; lia).
    now rewrite Hw'.
Qed.

Module TendencyRuns.
Import Scripted Run.

(** After 1. e4 e5 the window holds one human move: the code says "play
    aggressively" where counting by kind gives "piece development". *)
Lemma tendency_not_by_kind :
  tendency [e4_by_you; e5_by_ai] = "The human player tends to play aggressively"
  /\ tendency_by_kind [e4_by_you; e5_by_ai]
     = "The human player tends to favor piece development"
  /\ tendency [e4_by_you; e5_by_ai] <> tendency_by_kind [e4_by_you; e5_by_ai].
Proof. repeat split. discriminate. Qed.

Lemma tendency_cases_witness :
  tendency [e4_by_you; e5_by_ai; e4_by_you; e5_by_ai]
  = tendency_by_kind [e4_by_you; e5_by_ai; e4_by_you; e5_by_ai]
  /\ tendency [e4_by_you; e5_by_ai] = "The human player tends to play aggressively"
  /\ tendency [e4_by_you] = "This is early in the game".
Proof.
  split; [|split].
  - apply (tendency_cases [e4_by_you; e5_by_ai; e4_by_you; e5_by_ai]).
    simpl. lia.
  - apply (tendency_cases [e4_by_you; e5_by_ai]); simpl; lia.
  - apply (tendency_cases [e4_by_you]). simpl. lia.
Defined.

End TendencyRuns.

(* ================================================================== *)
(** ** The human's half-move *)

Section HumanMove.

Variable R : Rules.

(** C7. A drop for which the position has no legal move from the source to
    the target square is refused: [onDrop] returns false without calling
    [handleMove], so the game state, the history and everything else stay
    as they were. *)
Theorem onDrop_refuses_illegal_move wd sourceSquare targetSquare :
  applied_legal R ->
  (forall m, In m (moves R (fen (gameState (app wd)))) ->
             ~ (m_from m = sourceSquare /\ m_to m = targetSquare)) ->
  onDrop R wd sourceSquare targetSquare = (false, wd)
  /\ forall J, step R J (PieceDrop sourceSquare targetSquare) wd = Some wd.
Proof.
  intros Hlegal Hnone.
  assert (Hdrop : onDrop R wd sourceSquare targetSquare = (false, wd)).
  { unfold onDrop.
    destruct (negb (isPlayerTurn (gameState (app wd))
                    && GameStatus_eqb (gameStatus (gameState (app wd))) playing));
      [reflexivity|].
    match goal with |- context [move R ?f ?q] => destruct (move R f q) eqn:Hmove end;
      try reflexivity.
    apply Hlegal in Hmove. destruct Hmove as [Hin [Hfrom Hto]].
    exfalso. apply (Hnone _ Hin). now split. }
  split; [exact Hdrop|].
  intros J. simpl. now rewrite Hdrop.
Qed.

(** C9. When [handleMove] goes on to ask for the model's reply, the history
    it hands to [generateMove] is the one from before the human's half-move
    was appended: the state's history is that history followed by the new
    entry, and the window of the prompt is a final segment of the old
    history, ending before the new entry. *)
Theorem handleMove_passes_history_before_move a newFen mv a' t :
  handleMove R a newFen mv = (a', Some t) ->
  t = AwaitGenerateMove newFen (moveHistory a) (apiKey a) (selectedModel a)
  /\ moveHistory a' = (moveHistory a ++ [human_entry newFen mv])%list
  /\ (exists older,
        moveHistory a'
        = (older ++ recentMovesOf (moveHistory a) ++ [human_entry newFen mv])%list)
  /\ forall J request,
       first_request (generateMove R J newFen (moveHistory a) (apiKey a) (selectedModel a))
       = Some request ->
       request = prompt R J newFen (moveHistory a) (moves R newFen).
Proof.
  unfold handleMove. intros H.
  assert (Ht : t = AwaitGenerateMove newFen (moveHistory a) (apiKey a) (selectedModel a)
               /\ moveHistory a' = (moveHistory a ++ [human_entry newFen mv])%list).
  { destruct (p_gameStatus (checkGameStatus R newFen)) as [[| |]|];
      inversion H; subst; simpl; auto. }
  destruct Ht as [Ht Hhist]. repeat split; auto.
  - exists (firstn (length (moveHistory a) - 7) (moveHistory a)).
    rewrite Hhist, app_assoc. f_equal.
    unfold recentMovesOf, slice_last. symmetry. apply firstn_skipn.
  - intros J request. unfold generateMove.
    destruct (negb (truthy (apiKey a))); [discriminate|].
    destruct (length (moves R newFen) =? 0)%nat; [discriminate|].
    simpl. intros Hreq. now inversion Hreq.
Qed.

End HumanMove.

Module HumanMoveRuns.
Import Scripted ScriptedFacts Run.

(** Scenario B: from the starting position, e2 to e5 is refused. *)
Lemma onDrop_refuses_illegal_move_witness :
  onDrop chess started "e2" "e5" = (false, started)
  /\ forall J, step chess J (PieceDrop "e2" "e5") started = Some started.
Proof.
  apply (@onDrop_refuses_illegal_move chess started "e2" "e5").
  - exact chess_applied_legal.
  - intros m Hin. vm_compute in Hin.
    destruct Hin as [<-|[<-|[]]]; intros [Hfrom Hto]; discriminate.
Defined.

Lemma handleMove_passes_history_before_move_witness :
  AwaitGenerateMove f3 [] "sk-test" "gpt-4o"
  = AwaitGenerateMove f3 (moveHistory (app started)) (apiKey (app started))
                      (selectedModel (app started))
  /\ moveHistory (app after_f3)
     = (moveHistory (app started) ++ [human_entry f3 (quiet "f2" "f3" "p" "f3")])%list.
Proof.
  destruct (@handleMove_passes_history_before_move chess (app started) f3
              (quiet "f2" "f3" "p" "f3") (app after_f3)
              (AwaitGenerateMove f3 [] "sk-test" "gpt-4o"))
    as [Htask [Hhist _]].
  - reflexivity.
  - split; [exact Htask | exact Hhist].
Defined.

End HumanMoveRuns.

(* ================================================================== *)
(** ** The clock *)

Lemma tick_decrements_player a :
  gameStatus (gameState a) = playing -> isPlayerTurn (gameState a) = true ->
  (0 < playerTime a)%Z ->
  tick a = setPlayerTime (playerTime a - 1) a.
Proof.
  intros Hs Ht Hpos. unfold tick. rewrite Hs, Ht.
  destruct (playerTime a <=? 0)%Z eqn:E; [apply Z.leb_le in E; lia | reflexivity].
Qed.

Lemma tick_decrements_ai a :
  gameStatus (gameState a) = playing -> isPlayerTurn (gameState a) = false ->
  (0 < aiTime a)%Z ->
  tick a = setAiTime (aiTime a - 1) a.
Proof.
  intros Hs Ht Hpos. unfold tick. rewrite Hs, Ht.
  destruct (aiTime a <=? 0)%Z eqn:E; [apply Z.leb_le in E; lia | reflexivity].
Qed.

Module ClockRuns.
Import Scripted Run.

(** C4, the code at the failing input. After 600 ticks of a started game
    the player's counter is 0 and the game is still being played, without a
    result; only the next tick ends it, for the model and on time. *)
Theorem tick_reaches_zero_while_playing :
  exists wd,
    steps chess json player_clock_runs_down initial = Some wd
    /\ playerTime (app wd) = 0%Z
    /\ gameStatus (gameState (app wd)) = playing
    /\ result (gameState (app wd)) = None
    /\ resultReason (gameState (app wd)) = None
    /\ exists wd',
         step chess json Tick wd = Some wd'
         /\ playerTime (app wd') = 0%Z
         /\ gameStatus (gameState (app wd')) = ended
         /\ result (gameState (app wd')) = Some ai
         /\ resultReason (gameState (app wd')) = Some by_time.
Proof.
  eexists. split; [vm_compute; reflexivity|].
  repeat split. eexists. split; [vm_compute; reflexivity|]. repeat split.
Qed.

End ClockRuns.

(* ================================================================== *)
(** ** The model's half-move: failures and late answers *)

Lemma random_index_lt r n : 0 < n -> random_index r n < n.
Proof.
  intros Hn. unfold random_index.
  apply Nat.Div0.div_lt_upper_bound. nia.
Qed.

Lemma remove_nth_length {A} (l : list A) i x :
  nth_error l i = Some x -> length (remove_nth i l) = length l - 1.
Proof.
  revert i. induction l as [|y rest IH]; intros [|k]; simpl; try discriminate.
  - intros _. lia.
  - intros H. rewrite (IH _ H).
    assert (k < length rest) by (apply nth_error_Some; congruence). lia.
Qed.

Lemma nth_error_last {A} (l : list A) x : nth_error (l ++ [x]) (length l) = Some x.
Proof. rewrite nth_error_app2, Nat.sub_diag by lia. reflexivity. Qed.

Lemma remove_nth_last {A} (l : list A) x : remove_nth (length l) (l ++ [x]) = l.
Proof. induction l as [|y rest IH]; simpl; [reflexivity | now rewrite IH]. Qed.

Section ModelMove.

Variable R : Rules.
Variable J : Json.

Lemma fallback_returns fen legalMoves service r :
  legal_applied R -> legalMoves = moves R fen -> legalMoves <> [] ->
  exists res m,
    run (fallback R fen legalMoves) service r = Returned res
    /\ gm_move res = Some m /\ In m legalMoves
    /\ gm_reasoning res = fallback_reasoning.
Proof.
  intros Hlegal Heq Hne. unfold fallback.
  assert (Hpos : 0 < length legalMoves) by (destruct legalMoves; simpl; [congruence | lia]).
  assert (Hb : (0 <? length legalMoves)%nat = true) by now apply Nat.ltb_lt.
  rewrite Hb. simpl.
  destruct (nth_error legalMoves (random_index r (length legalMoves))) as [m|] eqn:Hnth.
  - pose proof (nth_error_In _ _ Hnth) as Hin.
    assert (Hin' : In m (moves R fen)) by now rewrite <- Heq.
    destruct (Hlegal _ _ Hin') as [m' [fen' Hmove]]. rewrite Hmove. simpl.
    eexists. exists m. repeat split; auto.
  - apply nth_error_None in Hnth.
    pose proof (random_index_lt r Hpos). lia.
Qed.

Lemma merged_fields g f playerTurn f' :
  fen (merged R g f playerTurn f') = f
  /\ isPlayerTurn (merged R g f playerTurn f') = playerTurn
  /\ p_gameStatus (checkGameStatus R f') = Some (gameStatus (merged R g f playerTurn f'))
  /\ p_inCheck (checkGameStatus R f') = Some (inCheck (merged R g f playerTurn f'))
  /\ p_checkSquare (checkGameStatus R f')
     = Some (checkSquare (merged R g f playerTurn f'))
  /\ result (merged R g f playerTurn f')
     = or_else (p_result (checkGameStatus R f')) (result g)
  /\ resultReason (merged R g f playerTurn f')
     = or_else (p_resultReason (checkGameStatus R f')) (resultReason g).
Proof.
  unfold merged, checkGameStatus.
  repeat match goal with |- context [if ?c then _ else _] => destruct c end;
    simpl; repeat split.
Qed.

(** A result of [generateMove] that carries a move is applied in two
    steps, whatever the state: loaded when the call settles, merged when
    the timer fires. *)
Lemma answer_is_applied wd i newFen hist key model service r res mv :
  nth_error (tasks wd) i = Some (AwaitGenerateMove newFen hist key model) ->
  run (generateMove R J newFen hist key model) service r = Returned res ->
  gm_move res = Some mv ->
  step R J (Settle i service r) wd
  = Some {| app := loadChessRef (gm_fen res) (app wd);
            tasks := (remove_nth i (tasks wd)
                      ++ [AwaitTimeout res (checkGameStatus R (gm_fen res))])%list |}
  /\ exists wd2,
       step R J (Fire (length (tasks wd) - 1))
            {| app := loadChessRef (gm_fen res) (app wd);
               tasks := (remove_nth i (tasks wd)
                         ++ [AwaitTimeout res (checkGameStatus R (gm_fen res))])%list |}
       = Some wd2
       /\ gameState (app wd2)
          = merged R (gameState (app wd)) (gm_fen res) true (gm_fen res)
       /\ moveHistory (app wd2) = (moveHistory (app wd) ++ [ai_entry res mv])%list
       /\ isThinking (app wd2) = false
       /\ tasks wd2 = remove_nth i (tasks wd).
Proof.
  intros Htask Hrun Hmv. split.
  { simpl. rewrite Htask, Hrun. reflexivity. }
  rewrite <- (remove_nth_length _ _ Htask).
  eexists. split.
  { simpl. rewrite nth_error_last.
    unfold handleMove_timeout. rewrite Hmv. reflexivity. }
  simpl. repeat split. apply remove_nth_last.
Qed.

(** C2, as amended. An error of the authentication class reaching the
    [catch] of [generateMove] is thrown on as the API key error and no
    fallback move is made: [handleMove] clears [isThinking] and opens the
    key dialog, leaving the game state and the history as the human's move
    left them, with nothing further scheduled. Every other error is
    answered by a random legal move, which [handleMove] goes on to apply:
    it loads the position after that move and, when its timer fires, puts
    that position, gives the turn back to the player, merges the status
    [checkGameStatus] computed for it and appends the model's entry. *)
Theorem model_failure_outcomes wd i newFen hist key model service r e :
  legal_applied R ->
  nth_error (tasks wd) i = Some (AwaitGenerateMove newFen hist key model) ->
  key <> EmptyString ->
  moves R newFen <> [] ->
  attempt R J newFen (service model (prompt R J newFen hist (moves R newFen))) = inr e ->
  (isAuthError e = true ->
     run (generateMove R J newFen hist key model) service r
     = Thrown (Error invalid_key_message)
     /\ exists wd',
          step R J (Settle i service r) wd = Some wd'
          /\ isApiKeyModalOpen (app wd') = true
          /\ isThinking (app wd') = false
          /\ gameState (app wd') = gameState (app wd)
          /\ moveHistory (app wd') = moveHistory (app wd)
          /\ tasks wd' = remove_nth i (tasks wd))
  /\ (isAuthError e = false ->
     exists res m,
       run (generateMove R J newFen hist key model) service r = Returned res
       /\ gm_move res = Some m /\ In m (moves R newFen)
       /\ gm_reasoning res = fallback_reasoning
       /\ step R J (Settle i service r) wd
          = Some {| app := loadChessRef (gm_fen res) (app wd);
                    tasks := (remove_nth i (tasks wd)
                              ++ [AwaitTimeout res (checkGameStatus R (gm_fen res))])%list |}
       /\ (exists m', move R newFen (request_of m) = Applied m' (gm_fen res))
       /\ exists wd2,
            step R J (Fire (length (tasks wd) - 1))
                 {| app := loadChessRef (gm_fen res) (app wd);
                    tasks := (remove_nth i (tasks wd)
                              ++ [AwaitTimeout res (checkGameStatus R (gm_fen res))])%list |}
            = Some wd2
            /\ gameState (app wd2)
               = merged R (gameState (app wd)) (gm_fen res) true (gm_fen res)
            /\ fen (gameState (app wd2)) = gm_fen res
            /\ isPlayerTurn (gameState (app wd2)) = true
            /\ p_gameStatus (checkGameStatus R (gm_fen res))
               = Some (gameStatus (gameState (app wd2)))
            /\ p_inCheck (checkGameStatus R (gm_fen res))
               = Some (inCheck (gameState (app wd2)))
            /\ p_checkSquare (checkGameStatus R (gm_fen res))
               = Some (checkSquare (gameState (app wd2)))
            /\ moveHistory (app wd2) = (moveHistory (app wd) ++ [ai_entry res m])%list
            /\ isThinking (app wd2) = false
            /\ tasks wd2 = remove_nth i (tasks wd)).
Proof.
  intros Hlegal Htask Hkey Hmoves Hatt.
  assert (Hrun : run (generateMove R J newFen hist key model) service r
                 = run (on_error R newFen (moves R newFen) e) service r).
  { unfold generateMove.
    destruct key as [|c key']; [now elim Hkey|]. simpl.
    destruct (moves R newFen) as [|m0 rest] eqn:Hm; [now elim Hmoves|]. simpl.
    simpl in Hatt. now rewrite Hatt. }
  split; intros Hauth.
  - assert (Hthrown : run (generateMove R J newFen hist key model) service r
                      = Thrown (Error invalid_key_message)).
    { rewrite Hrun. unfold on_error. now rewrite Hauth. }
    split; [exact Hthrown|].
    eexists. split.
    + simpl. rewrite Htask, Hthrown. simpl. reflexivity.
    + simpl. repeat split.
  - destruct (@fallback_returns newFen (moves R newFen) service r Hlegal eq_refl Hmoves)
      as [res [m [Hres [Hm [Hin Hwhy]]]]].
    assert (Hreturned : run (generateMove R J newFen hist key model) service r
                        = Returned res).
    { rewrite Hrun. unfold on_error. now rewrite Hauth. }
    assert (Hmade : exists m', move R newFen (request_of m) = Applied m' (gm_fen res)).
    { destruct (fallback_returned _ _ _ _ _ Hres)
        as [m1 [Hm1 [_ [_ [[Hnull _]|Happlied]]]]];
        rewrite Hm in Hm1; inversion Hm1; subst m1.
      - destruct (Hlegal _ _ Hin) as [m' [fen' Hmove]]. congruence.
      - exact Happlied. }
    destruct (answer_is_applied wd i service r Htask Hreturned Hm)
      as [Hsettle [wd2 [Hfire [Hstate [Hhist [Hthink Htasks]]]]]].
    destruct (merged_fields (gameState (app wd)) (gm_fen res) true (gm_fen res))
      as [Hfen [Hturn [Hstatus [Hcheck [Hsquare _]]]]].
    exists res, m. repeat split; auto.
    exists wd2. rewrite Hstate. repeat split; auto.
Qed.

(** C3, as amended. An answer that arrives after the game has ended is not
    discarded: [handleMove] loads it and starts its timer, and when the
    timer fires the position and the turn are overwritten, the status and
    the check fields are those [checkGameStatus] computed for the new
    position (the result and its reason too where it computed any, the old
    ones staying otherwise), and one entry for the model's move is appended
    to the history. *)
Theorem late_answer_is_applied wd i newFen hist key model service r res mv :
  gameStatus (gameState (app wd)) = ended ->
  nth_error (tasks wd) i = Some (AwaitGenerateMove newFen hist key model) ->
  run (generateMove R J newFen hist key model) service r = Returned res ->
  gm_move res = Some mv ->
  exists wd1 wd2,
    step R J (Settle i service r) wd = Some wd1
    /\ step R J (Fire (length (tasks wd) - 1)) wd1 = Some wd2
    /\ fen (gameState (app wd2)) = gm_fen res
    /\ isPlayerTurn (gameState (app wd2)) = true
    /\ p_gameStatus (checkGameStatus R (gm_fen res))
       = Some (gameStatus (gameState (app wd2)))
    /\ moveHistory (app wd2) = (moveHistory (app wd) ++ [ai_entry res mv])%list
    /\ p_inCheck (checkGameStatus R (gm_fen res))
       = Some (inCheck (gameState (app wd2)))
    /\ p_checkSquare (checkGameStatus R (gm_fen res))
       = Some (checkSquare (gameState (app wd2)))
    /\ result (gameState (app wd2))
       = or_else (p_result (checkGameStatus R (gm_fen res))) (result (gameState (app wd)))
    /\ resultReason (gameState (app wd2))
       = or_else (p_resultReason (checkGameStatus R (gm_fen res)))
                 (resultReason (gameState (app wd)))
    /\ gameState (app wd2)
       = merged R (gameState (app wd)) (gm_fen res) true (gm_fen res)
    /\ isThinking (app wd2) = false.
Proof.
  intros _ Htask Hrun Hmv.
  destruct (answer_is_applied wd i service r Htask Hrun Hmv)
    as [Hsettle [wd2 [Hfire [Hstate [Hhist [Hthink Htasks]]]]]].
  destruct (merged_fields (gameState (app wd)) (gm_fen res) true (gm_fen res))
    as [Hfen [Hturn [Hstatus [Hcheck [Hsquare [Hresult Hreason]]]]]].
  eexists. exists wd2. split; [exact Hsettle|]. split; [exact Hfire|].
  rewrite Hstate. repeat split; auto.
Qed.

End ModelMove.

Module ModelMoveRuns.
Import Scripted ScriptedFacts Run.

(** The completion call fails with "401 Unauthorized" after 1. f3:
    [generateMove] throws, the dialog opens, and the game is left with the
    model to move, no move made and nothing pending. *)
Lemma auth_failure_makes_no_move :
  run (generateMove chess json f3 [] "sk-test" "gpt-4o") unauthorized draw_
  = Thrown (Error invalid_key_message)
  /\ (forall res,
        run (generateMove chess json f3 [] "sk-test" "gpt-4o") unauthorized draw_
        <> Returned res)
  /\ exists wd',
       step chess json (Settle 0 unauthorized draw_) after_f3 = Some wd'
       /\ isApiKeyModalOpen (app wd') = true
       /\ gameStatus (gameState (app wd')) = playing
       /\ isPlayerTurn (gameState (app wd')) = false
       /\ fen (gameState (app wd')) = f3
       /\ moveHistory (app wd') = [human_entry f3 (quiet "f2" "f3" "p" "f3")]
       /\ tasks wd' = [].
Proof.
  split; [reflexivity|]. split; [discriminate|].
  eexists. split; [vm_compute; reflexivity|]. repeat split.
Qed.

Lemma model_failure_outcomes_witness :
  run (generateMove chess json f3 [] "sk-test" "gpt-4o") unauthorized draw_
  = Thrown (Error invalid_key_message)
  /\ exists res m,
       run (generateMove chess json f3 [] "sk-test" "gpt-4o") unreachable draw_
       = Returned res
       /\ gm_move res = Some m /\ In m (moves chess f3)
       /\ gm_reasoning res = fallback_reasoning
       /\ (exists m', move chess f3 (request_of m) = Applied m' (gm_fen res))
       /\ exists wd1 wd2,
            step chess json (Settle 0 unreachable draw_) after_f3 = Some wd1
            /\ step chess json (Fire 0) wd1 = Some wd2
            /\ fen (gameState (app wd2)) = gm_fen res
            /\ isPlayerTurn (gameState (app wd2)) = true
            /\ moveHistory (app wd2)
               = (moveHistory (app after_f3) ++ [ai_entry res m])%list
            /\ isThinking (app wd2) = false
            /\ tasks wd2 = [].
Proof.
  split.
  - destruct (@model_failure_outcomes chess json after_f3 0 f3 [] "sk-test" "gpt-4o"
                unauthorized draw_ (Error "401 Unauthorized")) as [Hauth _].
    + exact chess_legal_applied.
    + reflexivity.
    + discriminate.
    + discriminate.
    + reflexivity.
    + destruct (Hauth eq_refl) as [Hthrown _]. exact Hthrown.
  - destruct (@model_failure_outcomes chess json after_f3 0 f3 [] "sk-test" "gpt-4o"
                unreachable draw_ (Error "fetch failed")) as [_ Hother].
    + exact chess_legal_applied.
    + reflexivity.
    + discriminate.
    + discriminate.
    + reflexivity.
    + destruct (Hother eq_refl)
        as [res [m [Hrun [Hm [Hin [Hwhy [Hsettle [Hmade
            [wd2 [Hfire [_ [Hfen [Hturn [_ [_ [_ [Hhist [Hthink Htasks]]]]]]]]]]]]]]]]]].
      exists res, m. repeat split; try assumption.
      eexists. exists wd2. split; [exact Hsettle|]. repeat split; assumption.
Defined.

(** The model's clock runs out after 1. f3 and the game ends on time; the
    answer e5 arrives afterwards and is applied: the position changes, the
    game is being played again and the history has a second entry. *)
Lemma late_answer_changes_ended_game :
  steps chess json flag_falls initial = Some flag_fallen
  /\ gameStatus (gameState (app flag_fallen)) = ended
  /\ resultReason (gameState (app flag_fallen)) = Some by_time
  /\ fen (gameState (app flag_fallen)) = f3
  /\ length (moveHistory (app flag_fallen)) = 1
  /\ exists wd',
       steps chess json [Settle 0 answers_e5 draw_; Fire 0] flag_fallen = Some wd'
       /\ fen (gameState (app wd')) = f3_e5
       /\ isPlayerTurn (gameState (app wd')) = true
       /\ gameStatus (gameState (app wd')) = playing
       /\ length (moveHistory (app wd')) = 2.
Proof.
  split; [vm_compute; reflexivity|].
  repeat split. eexists. split; [vm_compute; reflexivity|]. repeat split.
Qed.

Lemma late_answer_is_applied_witness :
  exists wd1 wd2,
    step chess json (Settle 0 answers_e5 draw_) flag_fallen = Some wd1
    /\ step chess json (Fire (length (tasks flag_fallen) - 1)) wd1 = Some wd2
    /\ fen (gameState (app wd2)) = gm_fen e5_generated
    /\ isPlayerTurn (gameState (app wd2)) = true
    /\ p_gameStatus (checkGameStatus chess (gm_fen e5_generated))
       = Some (gameStatus (gameState (app wd2)))
    /\ moveHistory (app wd2)
       = (moveHistory (app flag_fallen)
          ++ [ai_entry e5_generated (quiet "e7" "e5" "p" "e5")])%list
    /\ p_inCheck (checkGameStatus chess (gm_fen e5_generated))
       = Some (inCheck (gameState (app wd2)))
    /\ p_checkSquare (checkGameStatus chess (gm_fen e5_generated))
       = Some (checkSquare (gameState (app wd2)))
    /\ result (gameState (app wd2))
       = or_else (p_result (checkGameStatus chess (gm_fen e5_generated)))
                 (result (gameState (app flag_fallen)))
    /\ resultReason (gameState (app wd2))
       = or_else (p_resultReason (checkGameStatus chess (gm_fen e5_generated)))
                 (resultReason (gameState (app flag_fallen)))
    /\ gameState (app wd2)
       = merged chess (gameState (app flag_fallen)) (gm_fen e5_generated) true
                (gm_fen e5_generated)
    /\ isThinking (app wd2) = false.
Proof.
  apply (@late_answer_is_applied chess json flag_fallen 0 f3 [] "sk-test" "gpt-4o"
           answers_e5 draw_ e5_generated (quiet "e7" "e5" "p" "e5")).
  - reflexivity.
  - reflexivity.
  - reflexivity.
  - reflexivity.
Defined.

End ModelMoveRuns.

(* ================================================================== *)
(** ** What every reachable state satisfies *)

Lemma Forall_remove_nth {A} (P : A -> Prop) i l :
  Forall P l -> Forall P (remove_nth i l).
Proof.
  intros H. revert i. induction H as [|x rest Hx Hrest IH]; intros [|k]; simpl; auto.
Qed.

Lemma Forall_add_task (P : Task -> Prop) t l :
  Forall P l -> (forall x, t = Some x -> P x) -> Forall P (add_task t l).
Proof.
  intros Hl Ht. destruct t as [x|]; simpl; [|exact Hl].
  apply Forall_app. split; [exact Hl|]. constructor; auto.
Qed.

Lemma startGame_in_gameState key a :
  gameState (startGame_in key a) = gameState a
  \/ gameState (startGame_in key a) = fresh_game.
Proof. unfold startGame_in. destruct (negb (truthy key)); simpl; auto. Qed.

Lemma handleSubmit_gameState key model a :
  gameState (handleSubmit key model a) = gameState a
  \/ gameState (handleSubmit key model a) = fresh_game.
Proof.
  unfold handleSubmit.
  destruct (negb (truthy key) || String.eqb (trim key) EmptyString); auto.
  destruct (negb (startsWith key "sk-")); auto.
  unfold handleApiKeySubmit. simpl.
  destruct (gameStatus (gameState a)); simpl; auto.
  match goal with |- context [startGame_in ?k ?x] =>
    destruct (startGame_in_gameState k x) as [H|H]; rewrite H; auto end.
Qed.

Lemma tick_gameState a :
  gameState (tick a) = gameState a
  \/ exists winner, gameState (tick a) = spread (gameState a) (time_out winner).
Proof.
  unfold tick. destruct (gameStatus (gameState a)); auto.
  destruct (isPlayerTurn (gameState a)).
  - destruct (playerTime a <=? 0)%Z; simpl; eauto.
  - destruct (aiTime a <=? 0)%Z; simpl; eauto.
Qed.

Section Invariants.

Variable R : Rules.
Variable J : Json.

Ltac by_status :=
  unfold checkGameStatus;
  repeat match goal with |- context [if ?c then _ else _] => destruct c eqn:? end.

Lemma settled_gameState a settled :
  gameState (fst (handleMove_settled R a settled)) = gameState a.
Proof.
  destruct settled as [res|e]; simpl; [reflexivity|].
  destruct (isAuthError e); reflexivity.
Qed.

Lemma merged_fen_turn g f playerTurn f' :
  fen (merged R g f playerTurn f') = f
  /\ isPlayerTurn (merged R g f playerTurn f') = playerTurn.
Proof. unfold merged. by_status; simpl; auto. Qed.

Lemma merged_checkmate g f playerTurn f' :
  isCheckmate R f' = true ->
  gameStatus (merged R g f playerTurn f') = ended
  /\ resultReason (merged R g f playerTurn f') = Some by_checkmate
  /\ result (merged R g f playerTurn f')
     = Some (match turn R f' with White => ai | Black => player end).
Proof. intros Hmate. unfold merged, checkGameStatus. rewrite Hmate. simpl. auto. Qed.

Lemma merged_sound g f playerTurn f' :
  king_present R -> status_sound (merged R g f playerTurn f').
Proof.
  intros Hking. pose proof (Hking f') as Hk.
  unfold merged, status_sound. by_status; simpl; split;
    try discriminate; try (split; intros; congruence); try (split; intros; auto).
Qed.

Lemma handleMove_state a newFen mv :
  gameState (fst (handleMove R a newFen mv)) = merged R (gameState a) newFen false newFen
  /\ (snd (handleMove R a newFen mv) = None
      \/ snd (handleMove R a newFen mv)
         = Some (AwaitGenerateMove newFen (moveHistory a) (apiKey a) (selectedModel a))).
Proof.
  unfold handleMove.
  destruct (p_gameStatus (checkGameStatus R newFen)) as [[| |]|]; simpl; auto.
Qed.

Lemma timeout_state a aiMove st a' :
  handleMove_timeout a aiMove st = Some a' ->
  gameState a' = spread (spread (gameState a) (with_fen_turn (gm_fen aiMove) true)) st.
Proof.
  unfold handleMove_timeout. destruct (gm_move aiMove); [|discriminate].
  intros H. inversion H. reflexivity.
Qed.

Lemma fresh_game_sound : status_sound fresh_game.
Proof. split; simpl; [discriminate | split; [congruence | discriminate]]. Qed.

Lemma time_out_sound g winner : status_sound g -> status_sound (spread g (time_out winner)).
Proof. intros [_ Hsq]. split; simpl; [discriminate | exact Hsq]. Qed.

Lemma status_inv_step ev wd wd' :
  king_present R -> status_inv R wd -> step R J ev wd = Some wd' -> status_inv R wd'.
Proof.
  intros Hking [Hg Ht]. destruct ev as [|key model|s t| |i service r|i|opened]; simpl.
  - intros H; inversion H; subst; clear H. split; simpl; [|exact Ht].
    unfold startGame.
    destruct (startGame_in_gameState (apiKey (app wd)) (app wd)) as [E|E]; rewrite E;
      auto using fresh_game_sound.
  - intros H; inversion H; subst; clear H. split; simpl; [|exact Ht].
    destruct (handleSubmit_gameState key model (app wd)) as [E|E]; rewrite E;
      auto using fresh_game_sound.
  - intros H; inversion H; subst; clear H. unfold onDrop.
    destruct (negb _); [now split|].
    match goal with |- context [move R ?f ?q] => destruct (move R f q) as [mv newFen| |msg] end;
      try now split.
    destruct (handleMove_state (app wd) newFen mv) as [Hstate Htask].
    destruct (handleMove R (app wd) newFen mv) as [a' nxt]. simpl in *.
    split; simpl.
    + rewrite Hstate. now apply merged_sound.
    + apply Forall_add_task; [exact Ht|].
      intros x Hx. destruct Htask as [E|E]; rewrite E in Hx; inversion Hx. exact I.
  - intros H; inversion H; subst; clear H. split; simpl; [|exact Ht].
    destruct (tick_gameState (app wd)) as [E|[winner E]]; rewrite E;
      auto using time_out_sound.
  - destruct (nth_error (tasks wd) i) as [[newFen hist key model|aiMove st]|];
      try discriminate.
    pose proof (settled_gameState (app wd)
                  (run (generateMove R J newFen hist key model) service r)) as Hsame.
    destruct (run (generateMove R J newFen hist key model) service r) as [res|e];
      simpl in *; intros H; inversion H; subst; clear H; split; simpl.
    + exact Hg.
    + apply Forall_app. split; [now apply Forall_remove_nth|].
      constructor; [reflexivity | constructor].
    + now rewrite Hsame.
    + now apply Forall_remove_nth.
  - destruct (nth_error (tasks wd) i) as [[newFen hist key model|aiMove st]|] eqn:Hnth;
      try discriminate.
    destruct (handleMove_timeout (app wd) aiMove st) as [a'|] eqn:Hfire; [|discriminate].
    intros H; inversion H; subst; clear H. split; simpl.
    + rewrite (timeout_state _ _ _ Hfire).
      apply nth_error_In in Hnth. rewrite Forall_forall in Ht.
      specialize (Ht _ Hnth). simpl in Ht. subst st.
      now apply merged_sound.
    + now apply Forall_remove_nth.
  - intros H; inversion H; subst; clear H. split; simpl; [exact Hg | exact Ht].
Qed.

(** C6, as amended. In every reachable state, an ended game has a result,
    and [checkSquare] is set exactly when [inCheck] holds (chess.js showing
    the king of the side it reports in check). *)
Theorem reachable_status_sound wd :
  king_present R -> reachable R J wd -> status_sound (gameState (app wd)).
Proof.
  intros Hking Hreach.
  assert (Hinv : status_inv R wd).
  { induction Hreach as [|wd ev wd' _ IH Hstep].
    - split; simpl; [|constructor].
      split; simpl; [discriminate | split; [congruence | discriminate]].
    - exact (status_inv_step _ Hking IH Hstep). }
  exact (proj1 Hinv).
Qed.

End Invariants.

Lemma steps_reachable R J evs wd wd' :
  reachable R J wd -> steps R J evs wd = Some wd' -> reachable R J wd'.
Proof.
  revert wd. induction evs as [|ev rest IH]; simpl; intros wd Hreach.
  - intros H. inversion H. now subst.
  - destruct (step R J ev wd) as [wd1|] eqn:Hstep; [|discriminate].
    apply IH. eapply reachable_step; eauto.
Qed.

Section Sides.

Variable R : Rules.
Variable J : Json.

Hypothesis Hthrows : refusal_throws R.
Hypothesis Hturn : turn_passes R.

Lemma other_side f f' : turn R f' <> turn R f -> turn R f = White -> turn R f' = Black.
Proof. intros Hne Hw. rewrite Hw in Hne. destruct (turn R f'); congruence. Qed.

Lemma other_side' f f' : turn R f' <> turn R f -> turn R f = Black -> turn R f' = White.
Proof. intros Hne Hb. rewrite Hb in Hne. destruct (turn R f'); congruence. Qed.

Lemma fresh_game_white : turn R (fen fresh_game) = White.
Proof. exact (proj1 Hturn). Qed.

Lemma time_out_keeps g winner :
  fen (spread g (time_out winner)) = fen g
  /\ isPlayerTurn (spread g (time_out winner)) = isPlayerTurn g.
Proof. split; reflexivity. Qed.

Lemma sides_agree_step ev wd wd' :
  sides_agree R wd -> step R J ev wd = Some wd' -> sides_agree R wd'.
Proof.
  intros [Hg Ht]. destruct ev as [|key model|s t| |i service r|i|opened]; simpl.
  - intros H; inversion H; subst; clear H. split; simpl; [|exact Ht].
    unfold startGame.
    destruct (startGame_in_gameState (apiKey (app wd)) (app wd)) as [E|E]; rewrite E;
      auto using fresh_game_white.
  - intros H; inversion H; subst; clear H. split; simpl; [|exact Ht].
    destruct (handleSubmit_gameState key model (app wd)) as [E|E]; rewrite E;
      auto using fresh_game_white.
  - intros H; inversion H; subst; clear H. unfold onDrop.
    assert (Hwd : sides_agree R wd) by (split; assumption).
    destruct (isPlayerTurn (gameState (app wd))) eqn:Hmine; simpl; [|exact Hwd].
    destruct (GameStatus_eqb (gameStatus (gameState (app wd))) playing); simpl;
      [|exact Hwd].
    match goal with |- context [move R ?f ?q] =>
      destruct (move R f q) as [mv newFen| |msg] eqn:Hmove end; try exact Hwd.
    assert (Hblack : turn R newFen = Black).
    { eapply other_side; [exact (proj2 Hturn _ _ _ _ Hmove) | auto]. }
    destruct (handleMove_state R (app wd) newFen mv) as [Hstate Htask].
    destruct (handleMove R (app wd) newFen mv) as [a' nxt]. simpl in *.
    split; simpl.
    + rewrite Hstate. destruct (merged_fen_turn R (gameState (app wd)) newFen false newFen)
        as [_ Hfalse]. rewrite Hfalse. discriminate.
    + apply Forall_add_task; [exact Ht|].
      intros x Hx. destruct Htask as [E|E]; rewrite E in Hx; inversion Hx. exact Hblack.
  - intros H; inversion H; subst; clear H. split; simpl; [|exact Ht].
    destruct (tick_gameState (app wd)) as [E|[winner E]]; rewrite E; auto.
  - destruct (nth_error (tasks wd) i) as [[newFen hist key model|aiMove st]|] eqn:Hnth;
      try discriminate.
    pose proof (settled_gameState R (app wd)
                  (run (generateMove R J newFen hist key model) service r)) as Hsame.
    destruct (run (generateMove R J newFen hist key model) service r) as [res|e] eqn:Hrun;
      simpl in *; intros H; inversion H; subst; clear H; split; simpl.
    + exact Hg.
    + apply Forall_app. split; [now apply Forall_remove_nth|].
      constructor; [|constructor]. split; [|reflexivity].
      destruct (@generateMove_returned R J _ _ _ _ _ _ _ Hthrows Hrun)
        as [rq [m0 [m [Hmove _]]]].
      eapply other_side'; [exact (proj2 Hturn _ _ _ _ Hmove)|].
      apply nth_error_In in Hnth. rewrite Forall_forall in Ht.
      exact (Ht _ Hnth).
    + now rewrite Hsame.
    + now apply Forall_remove_nth.
  - destruct (nth_error (tasks wd) i) as [[newFen hist key model|aiMove st]|] eqn:Hnth;
      try discriminate.
    destruct (handleMove_timeout (app wd) aiMove st) as [a'|] eqn:Hfire; [|discriminate].
    intros H; inversion H; subst; clear H. split; simpl.
    + rewrite (@timeout_state _ _ _ _ Hfire).
      apply nth_error_In in Hnth. rewrite Forall_forall in Ht.
      destruct (Ht _ Hnth) as [Hwhite Hst]. subst st.
      fold (merged R (gameState (app wd)) (gm_fen aiMove) true (gm_fen aiMove)).
      destruct (merged_fen_turn R (gameState (app wd)) (gm_fen aiMove) true (gm_fen aiMove))
        as [Hfen _]. now rewrite Hfen.
    + now apply Forall_remove_nth.
  - intros H; inversion H; subst; clear H. split; simpl; [exact Hg | exact Ht].
Qed.

Lemma reachable_sides_agree wd : reachable R J wd -> sides_agree R wd.
Proof.
  induction 1 as [|wd ev wd' _ IH Hstep].
  - split; simpl; [intros _; exact (proj1 Hturn) | constructor].
  - eapply sides_agree_step; eauto.
Qed.

(** C5. Whenever a half-move is applied and the position it leads to is
    checkmate, the game is ended by checkmate and the result is the side
    that made the move: the player after the human's move, the model after
    the model's (chess.js refusing by exception and passing the turn with
    each move). *)
Theorem checkmate_credits_the_mover wd mover wd' :
  reachable R J wd ->
  half_move R J wd mover wd' ->
  isCheckmate R (fen (gameState (app wd'))) = true ->
  gameStatus (gameState (app wd')) = ended
  /\ resultReason (gameState (app wd')) = Some by_checkmate
  /\ result (gameState (app wd')) = Some mover.
Proof.
  intros Hreach Hhalf.
  destruct (@reachable_sides_agree wd Hreach) as [Hg Ht].
  destruct Hhalf as [wd s t wd' Hdrop | wd i wd' Hfire].
  - unfold onDrop in Hdrop.
    destruct (isPlayerTurn (gameState (app wd))) eqn:Hmine; simpl in Hdrop;
      [|inversion Hdrop].
    destruct (GameStatus_eqb (gameStatus (gameState (app wd))) playing); simpl in Hdrop;
      [|inversion Hdrop].
    match type of Hdrop with context [move R ?f ?q] =>
      destruct (move R f q) as [mv newFen| |msg] eqn:Hmove end; try now inversion Hdrop.
    assert (Hblack : turn R newFen = Black).
    { eapply other_side; [exact (proj2 Hturn _ _ _ _ Hmove) | auto]. }
    destruct (handleMove_state R (app wd) newFen mv) as [Hstate _].
    destruct (handleMove R (app wd) newFen mv) as [a' nxt]. simpl in Hstate.
    inversion Hdrop; subst; clear Hdrop. simpl. rewrite Hstate.
    destruct (merged_fen_turn R (gameState (app wd)) newFen false newFen) as [Hfen _].
    rewrite Hfen. intros Hmate.
    destruct (@merged_checkmate R (gameState (app wd)) newFen false newFen Hmate)
      as [H1 [H2 H3]].
    rewrite Hblack in H3. auto.
  - simpl in Hfire.
    destruct (nth_error (tasks wd) i) as [[newFen hist key model|aiMove st]|] eqn:Hnth;
      try discriminate.
    destruct (handleMove_timeout (app wd) aiMove st) as [a'|] eqn:Htimeout; [|discriminate].
    inversion Hfire; subst; clear Hfire. simpl.
    rewrite (@timeout_state _ _ _ _ Htimeout).
    apply nth_error_In in Hnth. rewrite Forall_forall in Ht.
    destruct (Ht _ Hnth) as [Hwhite Hst]. subst st.
    fold (merged R (gameState (app wd)) (gm_fen aiMove) true (gm_fen aiMove)).
    destruct (merged_fen_turn R (gameState (app wd)) (gm_fen aiMove) true (gm_fen aiMove))
      as [Hfen _].
    rewrite Hfen. intros Hmate.
    destruct (@merged_checkmate R (gameState (app wd)) (gm_fen aiMove) true (gm_fen aiMove)
                Hmate) as [H1 [H2 H3]].
    rewrite Hwhite in H3. auto.
Qed.

End Sides.

Module GameRuns.
Import Scripted ScriptedFacts Run.

Lemma before_Qh5_reachable : reachable chess json before_Qh5.
Proof.
  apply (@steps_reachable chess json to_Qh5 initial); [constructor | vm_compute; reflexivity].
Qed.

Lemma before_Qh4_reachable : reachable chess json before_Qh4.
Proof.
  apply (@steps_reachable chess json to_Qh4 initial); [constructor | vm_compute; reflexivity].
Qed.

Lemma revived_reachable : reachable chess json revived.
Proof.
  apply (@steps_reachable chess json late_answer initial);
    [constructor | vm_compute; reflexivity].
Qed.

(** 3. Qh5 mate by the human is a win for the player, 2... Qh4 mate by the
    model a win for the model. *)
Lemma checkmate_credits_the_mover_witness :
  (gameStatus (gameState (app (snd (onDrop chess before_Qh5 "d1" "h5")))) = ended
   /\ resultReason (gameState (app (snd (onDrop chess before_Qh5 "d1" "h5"))))
      = Some by_checkmate
   /\ result (gameState (app (snd (onDrop chess before_Qh5 "d1" "h5")))) = Some player)
  /\ (gameStatus (gameState (app (world_after (to_Qh4 ++ [Fire 0])))) = ended
      /\ resultReason (gameState (app (world_after (to_Qh4 ++ [Fire 0]))))
         = Some by_checkmate
      /\ result (gameState (app (world_after (to_Qh4 ++ [Fire 0])))) = Some ai).
Proof.
  split.
  - apply (@checkmate_credits_the_mover chess json chess_refusal_throws chess_turn_passes
             before_Qh5 player (snd (onDrop chess before_Qh5 "d1" "h5"))).
    + exact before_Qh5_reachable.
    + apply (@human_half_move chess json before_Qh5 "d1" "h5"). reflexivity.
    + reflexivity.
  - apply (@checkmate_credits_the_mover chess json chess_refusal_throws chess_turn_passes
             before_Qh4 ai (world_after (to_Qh4 ++ [Fire 0]))).
    + exact before_Qh4_reachable.
    + apply (@model_half_move chess json before_Qh4 0). reflexivity.
    + reflexivity.
Defined.

(** The model's clock has run out and its answer is applied afterwards: the
    state is reachable, it holds a result, and the game is being played. *)
Lemma result_without_ended_game :
  reachable chess json revived
  /\ result (gameState (app revived)) = Some player
  /\ resultReason (gameState (app revived)) = Some by_time
  /\ gameStatus (gameState (app revived)) = playing
  /\ ~ (result (gameState (app revived)) <> None
        <-> gameStatus (gameState (app revived)) = ended).
Proof.
  split; [exact revived_reachable|]. repeat split.
  intros [Hended _]. assert (H : playing = ended) by (apply Hended; discriminate).
  discriminate.
Qed.

Lemma reachable_status_sound_witness : status_sound (gameState (app revived)).
Proof.
  apply (@reachable_status_sound chess json revived).
  - exact chess_king_present.
  - exact revived_reachable.
Defined.

End GameRuns.

(* ================================================================== *)
(** ** Further properties of [generateMove] *)

Lemma prefix_empty s : prefix EmptyString s = true.
Proof. destruct s; reflexivity. Qed.

Lemma prefix_app_r sub s post : prefix sub s = true -> prefix sub (s ++ post) = true.
Proof.
  revert s. induction sub as [|c sub IH]; intros s; [intros _; apply prefix_empty|].
  destruct s as [|d s]; simpl; [discriminate|].
  destruct (ascii_dec c d); [apply IH | discriminate].
Qed.

Lemma prefix_app_l a rest s : prefix (a ++ rest) s = true -> prefix a s = true.
Proof.
  revert s. induction a as [|c a IH]; intros s; [intros _; apply prefix_empty|].
  destruct s as [|d s]; simpl; [discriminate|].
  destruct (ascii_dec c d); [apply IH | discriminate].
Qed.

Lemma prefix_refl_app s post : prefix s (s ++ post) = true.
Proof.
  induction s as [|c s IH]; simpl; [apply prefix_empty|].
  destruct (ascii_dec c c); [exact IH | congruence].
Qed.

Lemma includes_unfold s sub :
  includes s sub
  = if prefix sub s then true
    else match s with
         | EmptyString => false
         | String _ rest => includes rest sub
         end.
Proof. destruct s; reflexivity. Qed.

Lemma includes_here s post : includes (s ++ post) s = true.
Proof. now rewrite includes_unfold, prefix_refl_app. Qed.

Lemma includes_skip pre s sub : includes s sub = true -> includes (pre ++ s) sub = true.
Proof.
  intros H. induction pre as [|c pre IH]; [exact H|].
  change (String c pre ++ s) with (String c (pre ++ s)).
  rewrite includes_unfold, IH. now destruct (prefix sub (String c (pre ++ s))).
Qed.

Lemma includes_shorter s a rest : includes s (a ++ rest) = true -> includes s a = true.
Proof.
  induction s as [|c s IH]; rewrite (includes_unfold _ (a ++ rest)), (includes_unfold _ a).
  - destruct (prefix (a ++ rest) EmptyString) eqn:E; [|discriminate].
    intros _. now rewrite (prefix_app_l _ _ _ E).
  - destruct (prefix (a ++ rest) (String c s)) eqn:E.
    + intros _. now rewrite (prefix_app_l _ _ _ E).
    + intros H. rewrite (IH H). now destruct (prefix a (String c s)).
Qed.

(** X1. The test for an API key error comes down to a non-empty message
    that contains "API key", "auth", "401" or "403": the separate test for
    "authentication" never decides, and an error without a message is
    never of that class. *)
Theorem isAuthError_by_four_words error :
  isAuthError error
  = truthy (e_message error)
    && (includes (e_message error) "API key"
        || includes (e_message error) "auth"
        || includes (e_message error) "401"
        || includes (e_message error) "403").
Proof.
  unfold isAuthError. f_equal.
  destruct (includes (e_message error) "API key"); [reflexivity|]. simpl.
  destruct (includes (e_message error) "authentication") eqn:E; [|reflexivity].
  change "authentication" with ("auth" ++ "entication") in E.
  now rewrite (includes_shorter _ _ _ E).
Qed.

(** X2. The window of the prompt is the last 7 entries of the history it
    was given, or the whole history when that has at most 7. *)
Theorem recentMovesOf_last_seven moveHistory :
  length (recentMovesOf moveHistory) = Nat.min 7 (length moveHistory)
  /\ (exists older, moveHistory = (older ++ recentMovesOf moveHistory)%list)
  /\ (length moveHistory <= 7 -> recentMovesOf moveHistory = moveHistory).
Proof.
  unfold recentMovesOf, slice_last. repeat split.
  - rewrite length_skipn. lia.
  - exists (firstn (length moveHistory - 7) moveHistory). symmetry. apply firstn_skipn.
  - intros Hle. replace (length moveHistory - 7) with 0 by lia. reflexivity.
Qed.


Lemma half_sum n k :
  (n + k) / 2 = n / 2 + k / 2 + (if Nat.even n || Nat.even k then 0 else 1).
Proof.
  pose proof (Nat.div_mod_eq n 2) as Hn. pose proof (Nat.mod_upper_bound n 2) as Hx.
  pose proof (Nat.div_mod_eq k 2) as Hk. pose proof (Nat.mod_upper_bound k 2) as Hy.
  set (a := n / 2) in *. set (x := n mod 2) in *.
  set (c := k / 2) in *. set (y := k mod 2) in *.
  assert (En : Nat.even n = Nat.even x)
    by (rewrite Hn, Nat.add_comm; apply Nat.even_add_mul_2).
  assert (Ek : Nat.even k = Nat.even y)
    by (rewrite Hk, Nat.add_comm; apply Nat.even_add_mul_2).
  rewrite En, Ek.
  replace (n + k) with ((a + c) * 2 + (x + y)) by lia.
  rewrite Nat.div_add_l by lia.
  destruct x as [|[|x]]; destruct y as [|[|y]]; simpl; lia.
Qed.

(** X3. The prompt numbers the entries of its window by halving the index
    in the window and the number of entries left out separately. The
    number is the one the move list shows for the same entry exactly when
    the number of entries left out or the index in the window is even;
    otherwise it is one less. *)
Theorem promptNumber_against_listNumber moveHistory index :
  formattedHistory moveHistory
  = join nl
      (mapi (fun m i =>
               show_nat (promptNumber moveHistory i)
               ++ ". " ++ match cm_player m with You => "Human" | AI => "AI" end
               ++ ": " ++ cm_san m
               ++ (if truthy_opt (cm_reasoning m)
                   then " (" ++ or_else (cm_reasoning m) EmptyString ++ ")"
                   else EmptyString))
            (recentMovesOf moveHistory))
  /\ let left_out := length moveHistory - length (recentMovesOf moveHistory) in
     (Nat.even left_out || Nat.even index = true ->
        promptNumber moveHistory index = listNumber (left_out + index))
     /\ (Nat.even left_out || Nat.even index = false ->
        promptNumber moveHistory index + 1 = listNumber (left_out + index)).
Proof.
  split; [reflexivity|].
  unfold promptNumber, listNumber.
  set (left_out := length moveHistory - length (recentMovesOf moveHistory)).
  cbv zeta. fold left_out. rewrite half_sum.
  split; intros H; rewrite H; lia.
Qed.

Lemma includes_refl s : includes s s = true.
Proof.
  rewrite includes_unfold.
  assert (H : prefix s s = true).
  { induction s as [|c s IH]; simpl; [reflexivity|].
    destruct (ascii_dec c c); [exact IH | congruence]. }
  now rewrite H.
Qed.

Lemma includes_left a rest sub : includes a sub = true -> includes (a ++ rest) sub = true.
Proof.
  induction a as [|c a IH]; rewrite (includes_unfold _ sub).
  - destruct (prefix sub EmptyString) eqn:E; [|discriminate].
    intros _. rewrite includes_unfold.
    change (EmptyString ++ rest) with rest.
    destruct sub; [now rewrite prefix_empty | simpl in E; discriminate].
  - destruct (prefix sub (String c a)) eqn:E.
    + intros _. rewrite includes_unfold. now rewrite (prefix_app_r _ _ rest E).
    + intros H. change (String c a ++ rest) with (String c (a ++ rest)).
      rewrite includes_unfold, (IH H).
      now destruct (prefix sub (String c (a ++ rest))).
Qed.

Lemma append_assoc a c d : (a ++ c) ++ d = a ++ c ++ d.
Proof. induction a as [|x a IH]; simpl; [reflexivity | now rewrite IH]. Qed.

Lemma includes_here3 a c d rest : includes (a ++ c ++ d ++ rest) (a ++ c ++ d) = true.
Proof.
  replace (a ++ c ++ d ++ rest) with ((a ++ c ++ d) ++ rest)
    by now rewrite !append_assoc.
  apply includes_here.
Qed.

Ltac find_part :=
  repeat first [apply includes_here | apply includes_refl | apply includes_skip].

Section GenerateMoveMore.

Variable R : Rules.
Variable J : Json.

(** X4. Whatever the history and the position, the prompt shows the FEN,
    the list of legal moves as [JSON.stringify] prints it, and the answer
    format. With an empty history it says that the game begins; otherwise
    it announces the size of the window (7 at most) and shows the
    formatted history and the two lines of commentary. *)
Theorem prompt_shows_position_and_moves fen moveHistory legalMoves :
  includes (prompt R J fen moveHistory legalMoves) fen = true
  /\ includes (prompt R J fen moveHistory legalMoves)
              (stringifyMoves J (formattedMoves legalMoves)) = true
  /\ includes (prompt R J fen moveHistory legalMoves) response_format = true
  /\ (moveHistory = [] ->
      includes (prompt R J fen moveHistory legalMoves)
               "This is the beginning of the game." = true)
  /\ (moveHistory <> [] ->
      includes (prompt R J fen moveHistory legalMoves)
               ("Recent game history (last "
                ++ show_nat (Nat.min 7 (length moveHistory)) ++ " moves):") = true
      /\ includes (prompt R J fen moveHistory legalMoves)
                  (formattedHistory moveHistory) = true
      /\ includes (prompt R J fen moveHistory legalMoves)
                  (tendency (recentMovesOf moveHistory)) = true
      /\ includes (prompt R J fen moveHistory legalMoves)
                  (capture_note (recentMovesOf moveHistory)) = true).
Proof.
  assert (Hlen : length (recentMovesOf moveHistory) = Nat.min 7 (length moveHistory))
    by (unfold recentMovesOf, slice_last; rewrite length_skipn; lia).
  unfold prompt. cbv zeta. rewrite Hlen.
  split; [find_part|]. split; [find_part|]. split; [find_part|]. split.
  - intros ->.
    change (0 <? Nat.min 7 (length (@nil ChessMove)))%nat with false.
    cbv iota. find_part.
  - intros Hne.
    assert (Hpos : (0 <? Nat.min 7 (length moveHistory))%nat = true).
    { apply Nat.ltb_lt. destruct moveHistory; [now elim Hne | simpl; lia]. }
    rewrite Hpos. cbv iota.
    repeat split; do 8 apply includes_skip; apply includes_left;
      [apply includes_here3 | find_part ..].
Qed.

(** X5. With a key and a legal move at hand, an answer that parses and
    names a move chess.js makes is returned as it is: the move chess.js
    returned, the position after it and the model's reasoning, whatever
    [Math.random] would give. *)
Theorem generateMove_returns_valid_answer fen hist key model service r text p m fen' :
  key <> EmptyString ->
  moves R fen <> [] ->
  service model (prompt R J fen hist (moves R fen)) = Text text ->
  parseMoveResponse J text = Parsed p ->
  move R fen {| rq_from := r_from p; rq_to := r_to p; rq_promotion := r_promotion p |}
  = Applied m fen' ->
  run (generateMove R J fen hist key model) service r
  = Returned {| gm_fen := fen'; gm_move := Some m; gm_reasoning := r_reasoning p |}.
Proof.
  intros Hkey Hmoves Htext Hparse Hmove. unfold generateMove.
  destruct key as [|c key']; [now elim Hkey|]. simpl.
  destruct (moves R fen) as [|m0 rest] eqn:Hm; [now elim Hmoves|]. simpl.
  simpl in Htext. rewrite Htext. unfold attempt. now rewrite Hparse, Hmove.
Qed.

(** X6. The fallback never fails on a position with legal moves, and every
    legal move is the one it returns for some value of [Math.random]; the
    position returned is the one chess.js reaches by that move. *)
Theorem fallback_can_choose_any_legal_move fen service :
  legal_applied R ->
  moves R fen <> [] ->
  (forall r, exists res, run (fallback R fen (moves R fen)) service r = Returned res)
  /\ forall m, In m (moves R fen) ->
       exists r res m',
         run (fallback R fen (moves R fen)) service r = Returned res
         /\ gm_move res = Some m
         /\ gm_reasoning res = fallback_reasoning
         /\ move R fen (request_of m) = Applied m' (gm_fen res).
Proof.
  intros Hlegal Hne. split.
  - intros r.
    destruct (@fallback_returns R fen (moves R fen) service r Hlegal eq_refl Hne)
      as [res [m [Hres _]]].
    now exists res.
  - intros m Hin.
    destruct (In_nth_error _ _ Hin) as [i Hi].
    assert (Hlt : i < length (moves R fen)) by (apply nth_error_Some; congruence).
    exists (mkRand i (length (moves R fen) - i - 1)).
    destruct (Hlegal _ _ Hin) as [m' [fen' Hmove]].
    exists {| gm_fen := fen'; gm_move := Some m; gm_reasoning := fallback_reasoning |}, m'.
    unfold fallback.
    assert (Hb : (0 <? length (moves R fen))%nat = true) by (apply Nat.ltb_lt; lia).
    rewrite Hb. simpl. unfold random_index. simpl.
    replace (i + (length (moves R fen) - i - 1) + 1) with (length (moves R fen)) by lia.
    rewrite Nat.div_mul by lia. rewrite Hi, Hmove. simpl. auto.
Qed.

End GenerateMoveMore.

(* ================================================================== *)
(** ** Further properties of the component *)

Lemma prefix_String a s1 c s2 :
  prefix (String a s1) (String c s2) = if ascii_dec a c then prefix s1 s2 else false.
Proof. reflexivity. Qed.

Lemma startsWith_sk_trim key :
  startsWith key "sk-" = true ->
  startsWith (trim key) "sk-" = true /\ truthy (trim key) = true.
Proof.
  unfold startsWith. intros H.
  destruct key as [|c1 key]; [simpl in H; discriminate H|].
  rewrite prefix_String in H. destruct (ascii_dec "s" c1) as [<-|]; [|discriminate H].
  destruct key as [|c2 key]; [simpl in H; discriminate H|].
  rewrite prefix_String in H. destruct (ascii_dec "k" c2) as [<-|]; [|discriminate H].
  destruct key as [|c3 rest]; [simpl in H; discriminate H|].
  rewrite prefix_String in H. destruct (ascii_dec "-" c3) as [<-|]; [|discriminate H].
  unfold trim. simpl.
  destruct (trimEnd rest); simpl; auto.
Qed.

Lemma startsWith_sk_truthy key : startsWith key "sk-" = true -> truthy key = true.
Proof. destruct key; [discriminate | reflexivity]. Qed.

Section WellFormed.

Variable R : Rules.
Variable J : Json.

Ltac flags :=
  unfold checkGameStatus;
  repeat match goal with |- context [if ?c then _ else _] => destruct c eqn:? end.

Lemma merged_result g f playerTurn f' :
  result_matches_reason (result g) (resultReason g) = true ->
  result_matches_reason (result (merged R g f playerTurn f'))
                        (resultReason (merged R g f playerTurn f')) = true
  /\ gameStatus (merged R g f playerTurn f') <> waiting
  /\ (gameStatus (merged R g f playerTurn f') = ended ->
      result (merged R g f playerTurn f') <> None).
Proof.
  intros Hg. unfold merged. flags; simpl; repeat split; auto; discriminate.
Qed.

Lemma well_formed_initial : well_formed R initial.
Proof.
  constructor; simpl; auto; try discriminate; try lia.
Qed.

Lemma well_formed_startGame key wd :
  (truthy key = true -> key = apiKey (app wd)) ->
  well_formed R wd ->
  well_formed R {| app := startGame_in key (app wd); tasks := tasks wd |}.
Proof.
  intros Hkey [Hw Hk Hp Htk Hts Hc Hr He Hth]. unfold startGame_in.
  destruct (truthy key) eqn:Ekey; simpl.
  - specialize (Hkey eq_refl). subst key.
    constructor; simpl; auto; try discriminate; try lia.
  - constructor; simpl; auto.
Qed.

Ltac leaf Hwf :=
  destruct Hwf as [Hw Hk Hp Htk Hts Hc Hr He Hth];
  constructor; simpl; auto using Forall_remove_nth;
  try discriminate; try lia; try (intros; congruence);
  try (intros; apply Hk; congruence).

Lemma well_formed_step ev wd wd' :
  well_formed R wd -> step R J ev wd = Some wd' -> well_formed R wd'.
Proof.
  intros Hwf.
  destruct ev as [|key model|s t| |i service r|i|opened]; simpl.
  - (* ClickStart *)
    intros H; inversion H; subst; clear H.
    apply well_formed_startGame; auto.
  - (* SubmitKey *)
    intros H; inversion H; subst; clear H. unfold handleSubmit.
    destruct (negb (truthy key) || String.eqb (trim key) EmptyString);
      [destruct wd; exact Hwf|].
    destruct (negb (startsWith key "sk-")) eqn:Esk; [destruct wd; exact Hwf|].
    apply negb_false_iff in Esk.
    destruct (startsWith_sk_trim _ Esk) as [Hsk Htruthy].
    unfold handleApiKeySubmit.
    destruct (gameStatus (gameState (app wd))) eqn:Est.
    + unfold startGame_in.
      destruct (truthy (apiKey (app wd))) eqn:Eold; simpl; leaf Hwf.
    + leaf Hwf.
    + leaf Hwf.
  - (* PieceDrop *)
    intros H; inversion H; subst; clear H. unfold onDrop.
    destruct (isPlayerTurn (gameState (app wd))) eqn:Hmine; simpl; [|exact Hwf].
    destruct (gameStatus (gameState (app wd))) eqn:Est; simpl; try exact Hwf.
    match goal with |- context [move R ?f ?q] =>
      destruct (move R f q) as [mv newFen| |msg] eqn:Hmove end; try exact Hwf.
    assert (Hkey : truthy (apiKey (app wd)) = true)
      by (apply (wf_key Hwf); congruence).
    assert (Hsk : startsWith (apiKey (app wd)) "sk-" = true).
    { destruct (wf_prefix Hwf) as [E|E]; [rewrite E in Hkey; discriminate | exact E]. }
    destruct (merged_result (gameState (app wd)) newFen false newFen (wf_result Hwf))
      as [Hr' [Hnw He']].
    unfold handleMove.
    fold (merged R (gameState (app wd)) newFen false newFen).
    destruct (p_gameStatus (checkGameStatus R newFen)) as [[| |]|] eqn:Eg; simpl;
      leaf Hwf;
      try (intros Hbad; now elim (Hnw Hbad));
      try (apply Forall_app; split; [assumption | constructor; [|constructor]]; simpl; auto);
      try (intros _ Hnil; apply app_eq_nil in Hnil; destruct Hnil; discriminate).
  - (* Tick *)
    intros H; inversion H; subst; clear H. unfold tick.
    destruct (gameStatus (gameState (app wd))) eqn:Est; try (destruct wd; exact Hwf).
    destruct (isPlayerTurn (gameState (app wd))).
    + destruct (playerTime (app wd) <=? 0)%Z eqn:E;
        [|apply Z.leb_gt in E]; leaf Hwf.
    + destruct (aiTime (app wd) <=? 0)%Z eqn:E;
        [|apply Z.leb_gt in E]; leaf Hwf.
  - (* Settle *)
    destruct (nth_error (tasks wd) i) as [[newFen hist key model|aiMove st]|] eqn:Hnth;
      try discriminate.
    assert (Hstatus : gameStatus (gameState (app wd)) <> waiting).
    { intros Hbad. destruct (wf_waiting Hwf Hbad) as [Hnil _]. rewrite Hnil in Hnth.
      destruct i; discriminate. }
    destruct (run (generateMove R J newFen hist key model) service r) as [res|e];
      simpl; intros H; inversion H; subst; clear H.
    + leaf Hwf.
      * apply Forall_app. split; [now apply Forall_remove_nth|].
        constructor; [exact I | constructor].
      * apply Forall_app. split; [now apply Forall_remove_nth|].
        constructor; [reflexivity | constructor].
      * intros _ Hnil. apply app_eq_nil in Hnil. destruct Hnil; discriminate.
    + destruct (isAuthError e); leaf Hwf.
  - (* Fire *)
    destruct (nth_error (tasks wd) i) as [[newFen hist key model|aiMove st]|] eqn:Hnth;
      try discriminate.
    unfold handleMove_timeout.
    destruct (gm_move aiMove) as [mv|]; [|discriminate].
    intros H; inversion H; subst; clear H.
    pose proof (nth_error_In _ _ Hnth) as Hin.
    pose proof (wf_task_status Hwf) as Hts'.
    rewrite Forall_forall in Hts'. specialize (Hts' _ Hin). simpl in Hts'. subst st.
    destruct (merged_result (gameState (app wd)) (gm_fen aiMove) true (gm_fen aiMove)
                (wf_result Hwf)) as [Hr' [Hnw He']].
    fold (merged R (gameState (app wd)) (gm_fen aiMove) true (gm_fen aiMove)).
    assert (Hstatus : gameStatus (gameState (app wd)) <> waiting).
    { intros Hbad. destruct (wf_waiting Hwf Hbad) as [Hnil _].
      rewrite Hnil in Hin. contradiction. }
    leaf Hwf.
    intros Hbad. now elim (Hnw Hbad).
  - (* KeyDialog *)
    intros H; inversion H; subst; clear H. leaf Hwf.
Qed.

Lemma reachable_well_formed wd : reachable R J wd -> well_formed R wd.
Proof.
  induction 1 as [|wd ev wd' _ IH Hstep].
  - exact well_formed_initial.
  - eapply well_formed_step; eauto.
Qed.

End WellFormed.

Section ReachableFacts.

Variable R : Rules.
Variable J : Json.

(** X7. Once a game has been started the component holds an API key; a
    stored key always begins with "sk-"; and every pending call of
    [generateMove] was given such a key, so it passes the key test: it
    either finds no legal move or sends its request. *)
Theorem reachable_key_present wd :
  reachable R J wd ->
  (gameStatus (gameState (app wd)) <> waiting -> apiKey (app wd) <> EmptyString)
  /\ (apiKey (app wd) = EmptyString \/ startsWith (apiKey (app wd)) "sk-" = true)
  /\ forall i newFen hist key model,
       nth_error (tasks wd) i = Some (AwaitGenerateMove newFen hist key model) ->
       startsWith key "sk-" = true
       /\ (generateMove R J newFen hist key model
           = Throw (Error "No legal moves available")
           \/ exists k,
                generateMove R J newFen hist key model
                = GenerateText model (prompt R J newFen hist (moves R newFen)) k).
Proof.
  intros Hreach. pose proof (reachable_well_formed Hreach) as Hwf.
  split; [|split].
  - intros Hne Hempty. pose proof (wf_key Hwf Hne) as Hk.
    rewrite Hempty in Hk. discriminate.
  - exact (wf_prefix Hwf).
  - intros i newFen hist key model Hnth.
    pose proof (wf_task_keys Hwf) as Hkeys. rewrite Forall_forall in Hkeys.
    pose proof (Hkeys _ (nth_error_In _ _ Hnth)) as Hsk. simpl in Hsk.
    split; [exact Hsk|].
    unfold generateMove. rewrite (startsWith_sk_truthy _ Hsk). simpl.
    destruct (length (moves R newFen) =? 0)%nat; eauto.
Qed.

(** X8. Both clocks stay between 0 and 600 seconds. *)
Theorem reachable_clocks_in_range wd :
  reachable R J wd ->
  (0 <= playerTime (app wd) <= 600)%Z /\ (0 <= aiTime (app wd) <= 600)%Z.
Proof. intros Hreach. exact (wf_clock (reachable_well_formed Hreach)). Qed.

(** X9. The result and its reason are always set together and fit: a win
    is by checkmate or on time, a draw by stalemate, insufficient material,
    repetition or the fifty-move rule, never by resignation. So an ended
    game shows one of the eight specific result messages, never the
    generic ones, and a specific detail line. *)
Theorem reachable_result_fits_reason wd :
  reachable R J wd ->
  result_matches_reason (result (gameState (app wd)))
                        (resultReason (gameState (app wd))) = true
  /\ resultReason (gameState (app wd)) <> Some by_resignation
  /\ (gameStatus (gameState (app wd)) = ended ->
      In (getResultMessage (gameState (app wd)))
         ["Checkmate! You won!"; "AI ran out of time. You won!";
          "Checkmate! AI won!"; "You ran out of time. AI won!";
          "Stalemate! The game is a draw.";
          "Insufficient material. The game is a draw.";
          "Threefold repetition. The game is a draw.";
          "Fifty-move rule. The game is a draw."]
      /\ resultDetail (gameState (app wd)) <> "The game has ended.").
Proof.
  intros Hreach. pose proof (reachable_well_formed Hreach) as Hwf.
  pose proof (wf_result Hwf) as Hfit. pose proof (wf_ended Hwf) as Hended.
  unfold getResultMessage, resultDetail.
  destruct (result (gameState (app wd))) as [[| |]|];
    destruct (resultReason (gameState (app wd))) as [[| | | | | |]|];
    simpl in Hfit; try discriminate Hfit;
    (split; [reflexivity | split; [discriminate|]]);
    intros He; try (now elim (Hended He)); split; simpl; try discriminate; tauto.
Qed.

(** X10. The "Thinking..." indicator is on only while an answer of the
    model, or the timer that applies it, is pending. *)
Theorem reachable_thinking_has_pending_work wd :
  reachable R J wd -> isThinking (app wd) = true -> tasks wd <> [].
Proof. intros Hreach. exact (wf_thinking (reachable_well_formed Hreach)). Qed.

End ReachableFacts.

(* ================================================================== *)
(** ** The clock, tick by tick *)

(** X11. A tick touches one counter at most: the player's on the player's
    turn, the model's otherwise, lowering it by one down to 0, and none
    unless the game is being played. It never changes the position, the
    turn, the check fields, the history, the thinking flag or the key. *)
Theorem tick_runs_one_clock a :
  (gameStatus (gameState a) <> playing -> tick a = a)
  /\ (gameStatus (gameState a) = playing -> isPlayerTurn (gameState a) = true ->
      playerTime (tick a) = Z.max 0 (playerTime a - 1) /\ aiTime (tick a) = aiTime a)
  /\ (gameStatus (gameState a) = playing -> isPlayerTurn (gameState a) = false ->
      aiTime (tick a) = Z.max 0 (aiTime a - 1) /\ playerTime (tick a) = playerTime a)
  /\ fen (gameState (tick a)) = fen (gameState a)
  /\ isPlayerTurn (gameState (tick a)) = isPlayerTurn (gameState a)
  /\ inCheck (gameState (tick a)) = inCheck (gameState a)
  /\ checkSquare (gameState (tick a)) = checkSquare (gameState a)
  /\ moveHistory (tick a) = moveHistory a
  /\ isThinking (tick a) = isThinking a
  /\ apiKey (tick a) = apiKey a.
Proof.
  unfold tick.
  destruct (gameStatus (gameState a)) eqn:Est;
    destruct (isPlayerTurn (gameState a)) eqn:Eturn;
    try (repeat split; intros; congruence).
  - destruct (playerTime a <=? 0)%Z eqn:E;
      [apply Z.leb_le in E | apply Z.leb_gt in E];
      simpl; rewrite ?Eturn; repeat split; intros; try congruence; lia.
  - destruct (aiTime a <=? 0)%Z eqn:E;
      [apply Z.leb_le in E | apply Z.leb_gt in E];
      simpl; rewrite ?Eturn; repeat split; intros; try congruence; lia.
Qed.

Lemma ticks_player n : forall a,
  gameStatus (gameState a) = playing -> isPlayerTurn (gameState a) = true ->
  playerTime a = Z.of_nat n ->
  ticks n a = setPlayerTime 0 a.
Proof.
  unfold ticks. induction n as [|n IH]; intros a Hs Ht Htime.
  - simpl. destruct a; simpl in *. now subst.
  - rewrite Nat.iter_succ_r.
    rewrite (tick_decrements_player a Hs Ht) by lia.
    rewrite IH; simpl; auto; lia.
Qed.

Lemma ticks_ai n : forall a,
  gameStatus (gameState a) = playing -> isPlayerTurn (gameState a) = false ->
  aiTime a = Z.of_nat n ->
  ticks n a = setAiTime 0 a.
Proof.
  unfold ticks. induction n as [|n IH]; intros a Hs Ht Htime.
  - simpl. destruct a; simpl in *. now subst.
  - rewrite Nat.iter_succ_r.
    rewrite (tick_decrements_ai a Hs Ht) by lia.
    rewrite IH; simpl; auto; lia.
Qed.

(** X12. Left to the clock alone, a game being played with [n] seconds on
    the counter of the side to move is still being played, unchanged but
    for that counter at 0, after [n] ticks, and is over after [n + 1]: the
    other side has won on time. In particular a game waiting for the model
    does end. *)
Theorem clock_runs_out a n :
  gameStatus (gameState a) = playing ->
  (isPlayerTurn (gameState a) = true -> playerTime a = Z.of_nat n ->
     ticks n a = setPlayerTime 0 a
     /\ ticks (S n) a
        = setPlayerTime 0 (setGameState (fun prev => spread prev (time_out ai)) a)
     /\ gameStatus (gameState (ticks (S n) a)) = ended
     /\ result (gameState (ticks (S n) a)) = Some ai
     /\ resultReason (gameState (ticks (S n) a)) = Some by_time)
  /\ (isPlayerTurn (gameState a) = false -> aiTime a = Z.of_nat n ->
     ticks n a = setAiTime 0 a
     /\ ticks (S n) a
        = setAiTime 0 (setGameState (fun prev => spread prev (time_out player)) a)
     /\ gameStatus (gameState (ticks (S n) a)) = ended
     /\ result (gameState (ticks (S n) a)) = Some player
     /\ resultReason (gameState (ticks (S n) a)) = Some by_time).
Proof.
  intros Hs. split; intros Ht Htime.
  - pose proof (ticks_player n a Hs Ht Htime) as Hn.
    assert (HS : ticks (S n) a
                 = setPlayerTime 0 (setGameState (fun prev => spread prev (time_out ai)) a)).
    { change (ticks (S n) a) with (tick (ticks n a)). rewrite Hn.
      unfold tick. simpl. now rewrite Hs, Ht. }
    split; [exact Hn|]. split; [exact HS|]. rewrite HS. simpl. auto.
  - pose proof (ticks_ai n a Hs Ht Htime) as Hn.
    assert (HS : ticks (S n) a
                 = setAiTime 0 (setGameState (fun prev => spread prev (time_out player)) a)).
    { change (ticks (S n) a) with (tick (ticks n a)). rewrite Hn.
      unfold tick. simpl. now rewrite Hs, Ht. }
    split; [exact Hn|]. split; [exact HS|]. rewrite HS. simpl. auto.
Qed.

(* ================================================================== *)
(** ** The key dialog, the drop and the restart *)

Lemma valid_key_passes key :
  startsWith key "sk-" = true ->
  negb (truthy key) || String.eqb (trim key) EmptyString = false.
Proof.
  intros Hsk. rewrite (startsWith_sk_truthy _ Hsk). simpl.
  destruct (startsWith_sk_trim _ Hsk) as [_ Htrim].
  destruct (trim key); [discriminate | reflexivity].
Qed.

(** X13. The key dialog leaves everything as it is for a key that does
    not begin with "sk-" (an empty or blank key included). A key that does
    is stored trimmed and the dialog closed. While the game is waiting this
    starts the game only if a key was stored before: with no key before,
    the game stays waiting, since the [startGame] called still sees the
    old, empty key. *)
Theorem handleSubmit_starts_only_with_old_key key model a :
  (startsWith key "sk-" = false -> handleSubmit key model a = a)
  /\ (startsWith key "sk-" = true ->
      apiKey (handleSubmit key model a) = trim key
      /\ selectedModel (handleSubmit key model a) = model
      /\ isApiKeyModalOpen (handleSubmit key model a) = false
      /\ (gameStatus (gameState a) = waiting -> apiKey a = EmptyString ->
          gameState (handleSubmit key model a) = gameState a)
      /\ (gameStatus (gameState a) = waiting -> apiKey a <> EmptyString ->
          gameState (handleSubmit key model a) = fresh_game
          /\ playerTime (handleSubmit key model a) = 600%Z
          /\ aiTime (handleSubmit key model a) = 600%Z
          /\ moveHistory (handleSubmit key model a) = [])
      /\ (gameStatus (gameState a) <> waiting ->
          gameState (handleSubmit key model a) = gameState a
          /\ moveHistory (handleSubmit key model a) = moveHistory a)).
Proof.
  split; intros Hsk; unfold handleSubmit.
  - rewrite Hsk. simpl.
    now destruct (negb (truthy key) || String.eqb (trim key) EmptyString).
  - rewrite (valid_key_passes _ Hsk), Hsk. simpl.
    unfold handleApiKeySubmit, startGame_in.
    destruct (gameStatus (gameState a)) eqn:Est;
      destruct (apiKey a) as [|c k] eqn:Ekey; simpl;
      repeat split; intros; try congruence.
Qed.

Section Moves.

Variable R : Rules.
Variable J : Json.

Lemma checkGameStatus_status f :
  p_gameStatus (checkGameStatus R f) = Some ended
  \/ p_gameStatus (checkGameStatus R f) = Some playing.
Proof.
  unfold checkGameStatus.
  repeat match goal with |- context [if ?c then _ else _] => destruct c end; simpl; auto.
Qed.

(** X14. A drop is accepted only on the player's turn of a game being
    played and only for a move chess.js makes. It then puts the new
    position, passes the turn to the model and appends the human's entry,
    leaving both clocks alone; exactly when the move has not ended the
    game the thinking flag is set and one [generateMove] call, on the new
    position and the history from before the move, is added to the calls
    already pending. *)
Theorem accepted_drop wd sourceSquare targetSquare wd' :
  onDrop R wd sourceSquare targetSquare = (true, wd') ->
  exists mv newFen,
    move R (fen (gameState (app wd)))
         {| rq_from := sourceSquare; rq_to := targetSquare; rq_promotion := Some "q" |}
    = Applied mv newFen
    /\ isPlayerTurn (gameState (app wd)) = true
    /\ gameStatus (gameState (app wd)) = playing
    /\ fen (gameState (app wd')) = newFen
    /\ isPlayerTurn (gameState (app wd')) = false
    /\ moveHistory (app wd') = (moveHistory (app wd) ++ [human_entry newFen mv])%list
    /\ playerTime (app wd') = playerTime (app wd)
    /\ aiTime (app wd') = aiTime (app wd)
    /\ (gameStatus (gameState (app wd')) = ended ->
        tasks wd' = tasks wd /\ isThinking (app wd') = isThinking (app wd))
    /\ (gameStatus (gameState (app wd')) <> ended ->
        gameStatus (gameState (app wd')) = playing
        /\ isThinking (app wd') = true
        /\ tasks wd'
           = (tasks wd ++ [AwaitGenerateMove newFen (moveHistory (app wd))
                             (apiKey (app wd)) (selectedModel (app wd))])%list).
Proof.
  unfold onDrop.
  destruct (isPlayerTurn (gameState (app wd))) eqn:Hmine; simpl; [|discriminate].
  destruct (gameStatus (gameState (app wd))) eqn:Est; simpl; try discriminate.
  match goal with |- context [move R ?f ?q] =>
    destruct (move R f q) as [mv newFen| |msg] eqn:Hmove end; try discriminate.
  intros H. exists mv, newFen.
  destruct (merged_fen_turn R (gameState (app wd)) newFen false newFen) as [Hfen Hturn].
  unfold handleMove in H.
  fold (merged R (gameState (app wd)) newFen false newFen) in H.
  assert (Hstatus : p_gameStatus (checkGameStatus R newFen)
                    = Some (gameStatus (merged R (gameState (app wd)) newFen false newFen))).
  { unfold merged. simpl.
    destruct (checkGameStatus_status newFen) as [E|E]; rewrite E; reflexivity. }
  destruct (checkGameStatus_status newFen) as [E|E]; rewrite E in H, Hstatus;
    inversion Hstatus as [Hst]; inversion H; subst; clear H; simpl;
    rewrite <- Hst; repeat split; auto; intros; congruence.
Qed.

(** X15. Starting anew does not call off a pending request. If the game
    is restarted while an answer of the model is awaited, that answer is
    still applied when it comes: the fresh game takes the old game's
    position and its history begins with the model's entry. *)
Theorem restart_keeps_pending_answer wd i newFen hist key model service r res mv :
  apiKey (app wd) <> EmptyString ->
  nth_error (tasks wd) i = Some (AwaitGenerateMove newFen hist key model) ->
  run (generateMove R J newFen hist key model) service r = Returned res ->
  gm_move res = Some mv ->
  exists wd1 wd2 wd3,
    step R J ClickStart wd = Some wd1
    /\ gameState (app wd1) = fresh_game
    /\ moveHistory (app wd1) = []
    /\ tasks wd1 = tasks wd
    /\ step R J (Settle i service r) wd1 = Some wd2
    /\ step R J (Fire (length (tasks wd) - 1)) wd2 = Some wd3
    /\ fen (gameState (app wd3)) = gm_fen res
    /\ isPlayerTurn (gameState (app wd3)) = true
    /\ moveHistory (app wd3) = [ai_entry res mv].
Proof.
  intros Hkey Htask Hrun Hmv.
  assert (Htruthy : truthy (apiKey (app wd)) = true)
    by (destruct (apiKey (app wd)); [now elim Hkey | reflexivity]).
  eexists. eexists. eexists.
  split; [reflexivity|].
  unfold startGame, startGame_in. rewrite Htruthy. simpl.
  repeat split.
  - rewrite Htask, Hrun. simpl. reflexivity.
  - simpl. rewrite <- (remove_nth_length _ _ Htask), nth_error_last.
    unfold handleMove_timeout. rewrite Hmv. reflexivity.
  - simpl. unfold checkGameStatus.
    repeat match goal with |- context [if ?c then _ else _] => destruct c end; reflexivity.
  - simpl. unfold checkGameStatus.
    repeat match goal with |- context [if ?c then _ else _] => destruct c end; reflexivity.
  - reflexivity.
Qed.

(** X16. [checkGameStatus] ends the game exactly when chess.js reports
    checkmate, stalemate, insufficient material, threefold repetition or a
    draw, and says "playing" otherwise; it always sets the two check
    fields, never the position or the turn, and sets a result and a reason
    exactly when it ends the game. The check flag of an ended game is on
    for checkmate only. *)
Theorem checkGameStatus_cases f :
  let p := checkGameStatus R f in
  let over := isCheckmate R f || isStalemate R f || isInsufficientMaterial R f
              || isThreefoldRepetition R f || isDraw R f in
  p_fen p = None /\ p_isPlayerTurn p = None
  /\ p_gameStatus p = Some (if over then ended else playing)
  /\ (over = true ->
      p_inCheck p = Some (isCheckmate R f)
      /\ exists winner reason,
           p_result p = Some (Some winner) /\ p_resultReason p = Some (Some reason)
           /\ result_matches_reason (Some winner) (Some reason) = true
           /\ (winner = draw <-> isCheckmate R f = false))
  /\ (over = false ->
      p_result p = None /\ p_resultReason p = None
      /\ p_inCheck p = Some (isCheck R f))
  /\ (p_checkSquare p = Some None <-> p_inCheck p = Some false
      \/ findKingSquare R f (turn R f) = None).
Proof.
  unfold checkGameStatus.
  destruct (isCheckmate R f); [|destruct (isStalemate R f);
    [|destruct (isInsufficientMaterial R f); [|destruct (isThreefoldRepetition R f);
      [|destruct (isDraw R f); [|destruct (isCheck R f)]]]]];
    simpl; repeat split; try discriminate; auto;
    try (destruct (turn R f); eexists; eexists; repeat split;
         intros; first [reflexivity | discriminate]);
    try (intros [H|H]; [discriminate H | now rewrite H]);
    try (intros H; right; congruence).
Qed.

End Moves.

(* ================================================================== *)
(** ** Finding the king *)

Lemma first_some_sound {A B} (f : A -> option B) l y :
  first_some f l = Some y -> exists x, In x l /\ f x = Some y.
Proof.
  induction l as [|x rest IH]; simpl; [discriminate|].
  destruct (f x) as [z|] eqn:E.
  - intros H; inversion H; subst. exists x. auto.
  - intros H. destruct (IH H) as [x' [Hin Hx']]. exists x'. auto.
Qed.

Lemma first_some_complete {A B} (f : A -> option B) l x :
  In x l -> f x <> None -> first_some f l <> None.
Proof.
  induction l as [|z rest IH]; simpl; [contradiction|].
  intros [->|Hin] Hx.
  - destruct (f x); [discriminate | contradiction].
  - destruct (f z); [discriminate | auto].
Qed.

Lemma Color_eqb_eq x y : Color_eqb x y = true <-> x = y.
Proof. destruct x, y; simpl; split; congruence. Qed.

(** X17. [findKingSquare] answers with a square exactly when the 8 by 8
    board holds a king of the colour asked for; the square it gives names
    such a king, by file letter and rank digit (two characters). *)
Theorem findKingSquare_finds_the_king (R : Rules) fen c :
  (forall square,
     findKingSquare R fen c = Some square ->
     exists i j piece,
       i < 8 /\ j < 8
       /\ nth j (nth i (board R fen) []) None = Some piece
       /\ pc_type piece = "k" /\ pc_color piece = c
       /\ square = String (ascii_of_nat (97 + j)) EmptyString ++ show_nat (8 - i)
       /\ String.length square = 2)
  /\ (forall i j piece,
        i < 8 -> j < 8 ->
        nth j (nth i (board R fen) []) None = Some piece ->
        pc_type piece = "k" -> pc_color piece = c ->
        findKingSquare R fen c <> None).
Proof.
  unfold findKingSquare. split.
  - intros square H.
    apply first_some_sound in H. destruct H as [i [Hi H]].
    apply first_some_sound in H. destruct H as [j [Hj H]].
    apply in_seq in Hi. apply in_seq in Hj.
    destruct (nth j (nth i (board R fen) []) None) as [piece|] eqn:Hcell; [|discriminate].
    destruct (String.eqb (pc_type piece) "k" && Color_eqb (pc_color piece) c) eqn:Hking;
      [|discriminate].
    apply andb_prop in Hking. destruct Hking as [Htype Hcolor].
    apply String.eqb_eq in Htype. apply Color_eqb_eq in Hcolor.
    inversion H as [Hsq]. exists i, j, piece.
    repeat split; auto; try lia.
    assert (Hrank : i < 8) by lia. clear - Hrank.
    do 8 (destruct i as [|i]; [reflexivity|]). lia.
  - intros i j piece Hi Hj Hcell Htype Hcolor.
    apply first_some_complete with (x := i); [apply in_seq; lia|].
    apply first_some_complete with (x := j); [apply in_seq; lia|].
    rewrite Hcell, Htype, Hcolor. simpl.
    assert (Hc : Color_eqb c c = true) by now apply Color_eqb_eq.
    rewrite Hc. discriminate.
Qed.

(* ================================================================== *)
(** ** What is displayed *)

Lemma formatTime_checked :
  forallb (fun n =>
             Nat.eqb (String.length (formatTime n)) 5
             && match get 2 (formatTime n) with
                | Some c => Ascii.eqb c ":"
                | None => false
                end
             && match readTime (formatTime n) with
                | Some k => Nat.eqb k n
                | None => false
                end)
          (seq 0 (100 * 60)) = true.
Proof. vm_compute. reflexivity. Qed.

Lemma formatTime_below_100_minutes n :
  n < (100 * 60) ->
  String.length (formatTime n) = 5
  /\ get 2 (formatTime n) = Some ":"%char
  /\ readTime (formatTime n) = Some n.
Proof.
  intros Hn. pose proof formatTime_checked as Hall.
  rewrite forallb_forall in Hall.
  assert (Hin : In n (seq 0 (100 * 60))) by (apply in_seq; lia).
  specialize (Hall n Hin).
  apply andb_prop in Hall. destruct Hall as [Hall Hread].
  apply andb_prop in Hall. destruct Hall as [Hlen Hcolon].
  apply Nat.eqb_eq in Hlen.
  destruct (get 2 (formatTime n)) as [ch|]; [|discriminate].
  apply Ascii.eqb_eq in Hcolon. subst ch.
  destruct (readTime (formatTime n)) as [k|]; [|discriminate].
  apply Nat.eqb_eq in Hread. subst k. auto.
Qed.

(** X18. [formatTime] prints the minutes and the seconds below 60 of its
    argument, each padded to two digits. Below 100 minutes the text has
    five characters with the colon in the middle, and different times give
    different texts. *)
Theorem formatTime_minutes_and_seconds :
  (forall m s, s < 60 ->
     formatTime (60 * m + s)
     = padStart 2 "0"%char (show_nat m) ++ ":" ++ padStart 2 "0"%char (show_nat s))
  /\ (forall n, n < (100 * 60) ->
        String.length (formatTime n) = 5 /\ get 2 (formatTime n) = Some ":"%char)
  /\ (forall n k, n < (100 * 60) -> k < (100 * 60) -> formatTime n = formatTime k -> n = k).
Proof.
  split; [|split].
  - intros m s Hs. unfold formatTime.
    replace (60 * m + s) with (s + m * 60) by lia.
    rewrite Nat.div_add, Nat.Div0.mod_add, Nat.div_small, Nat.mod_small by lia.
    reflexivity.
  - intros n Hn. destruct (formatTime_below_100_minutes Hn) as [H1 [H2 _]]. auto.
  - intros n k Hn Hk Heq.
    destruct (formatTime_below_100_minutes Hn) as [_ [_ Hrn]].
    destruct (formatTime_below_100_minutes Hk) as [_ [_ Hrk]].
    rewrite Heq in Hrn. congruence.
Qed.

Lemma substring0_length n : forall s,
  n <= String.length s -> String.length (substring 0 n s) = n.
Proof.
  induction n as [|n IH]; intros s Hle.
  - destruct s; reflexivity.
  - destruct s as [|c s]; simpl in *; [lia|]. rewrite IH; lia.
Qed.

Lemma substring0_prefix n : forall s, prefix (substring 0 n s) s = true.
Proof.
  induction n as [|n IH]; intros s.
  - destruct s; reflexivity.
  - destruct s as [|c s]; simpl; [reflexivity|].
    destruct (ascii_dec c c); [apply IH | congruence].
Qed.

Lemma append_length a c : String.length (a ++ c) = String.length a + String.length c.
Proof. induction a as [|x a IH]; simpl; [reflexivity | now rewrite IH]. Qed.

(** X19. The move list shows a reasoning of up to 100 characters as it
    is, and of a longer one the first 100 characters followed by three
    dots: never more than 103 characters. *)
Theorem shownReasoning_is_bounded reasoning :
  String.length (shownReasoning reasoning) <= 103
  /\ (String.length reasoning <= 100 -> shownReasoning reasoning = reasoning)
  /\ (100 < String.length reasoning ->
      shownReasoning reasoning = substring 0 100 reasoning ++ "..."
      /\ String.length (shownReasoning reasoning) = 103
      /\ prefix (substring 0 100 reasoning) reasoning = true).
Proof.
  unfold shownReasoning.
  destruct (100 <? String.length reasoning)%nat eqn:E.
  - apply Nat.ltb_lt in E.
    assert (Hlen : String.length (substring 0 100 reasoning ++ "...") = 103).
    { rewrite append_length, substring0_length by lia. reflexivity. }
    repeat split; try lia; try apply substring0_prefix.
  - apply Nat.ltb_ge in E. repeat split; intros; try lia.
Qed.

(* ================================================================== *)
(** ** The further properties on concrete runs *)

Module MoreRuns.
Import Scripted ScriptedFacts Run.

Lemma after_f3_reachable : reachable chess json after_f3.
Proof.
  apply (@steps_reachable chess json opening initial); [constructor | vm_compute; reflexivity].
Qed.

Lemma flag_fallen_reachable : reachable chess json flag_fallen.
Proof.
  apply (@steps_reachable chess json flag_falls initial);
    [constructor | vm_compute; reflexivity].
Qed.

Lemma fallback_can_choose_any_legal_move_witness :
  exists r res m',
    run (fallback chess f3_e5_g4 (moves chess f3_e5_g4)) unreachable r = Returned res
    /\ gm_move res = Some (quiet "b8" "c6" "n" "Nc6")
    /\ gm_reasoning res = fallback_reasoning
    /\ move chess f3_e5_g4 (request_of (quiet "b8" "c6" "n" "Nc6"))
       = Applied m' (gm_fen res).
Proof.
  apply (@fallback_can_choose_any_legal_move chess f3_e5_g4 unreachable).
  - exact chess_legal_applied.
  - discriminate.
  - simpl. auto.
Defined.

Lemma generateMove_returns_valid_answer_witness :
  run (generateMove chess json f3 [] "sk-test" "gpt-4o") answers_e5 draw_
  = Returned e5_generated.
Proof.
  apply (@generateMove_returns_valid_answer chess json f3 [] "sk-test" "gpt-4o"
           answers_e5 draw_ "e7-e5: takes the centre"
           (mkResponse "e7" "e5" None "takes the centre")).
  - discriminate.
  - discriminate.
  - reflexivity.
  - reflexivity.
  - reflexivity.
Defined.

Lemma recentMovesOf_last_seven_witness :
  recentMovesOf [e4_by_you; e5_by_ai] = [e4_by_you; e5_by_ai].
Proof.
  apply (recentMovesOf_last_seven [e4_by_you; e5_by_ai]). simpl. lia.
Defined.

(** With nine entries the window leaves out two and the numbers agree;
    with eight it leaves out one and the second entry of the window, the
    human's second move, is numbered 1. *)
Lemma promptNumber_against_listNumber_witness :
  promptNumber (repeat e4_by_you 9) 1 = listNumber (2 + 1)
  /\ promptNumber (repeat e4_by_you 8) 1 + 1 = listNumber (1 + 1).
Proof.
  split.
  - apply (promptNumber_against_listNumber (repeat e4_by_you 9) 1). reflexivity.
  - apply (promptNumber_against_listNumber (repeat e4_by_you 8) 1). reflexivity.
Defined.

Lemma reachable_key_present_witness :
  apiKey (app after_f3) <> EmptyString
  /\ startsWith "sk-test" "sk-" = true.
Proof.
  destruct (@reachable_key_present chess json after_f3 after_f3_reachable)
    as [Hkey [_ Htasks]].
  split.
  - apply Hkey. discriminate.
  - apply (Htasks 0 f3 [] "sk-test" "gpt-4o"). reflexivity.
Defined.

Lemma reachable_clocks_in_range_witness :
  (0 <= playerTime (app flag_fallen) <= 600)%Z /\ (0 <= aiTime (app flag_fallen) <= 600)%Z.
Proof. exact (@reachable_clocks_in_range chess json flag_fallen flag_fallen_reachable). Defined.

Lemma reachable_result_fits_reason_witness :
  getResultMessage (gameState (app flag_fallen)) = "AI ran out of time. You won!"
  /\ resultDetail (gameState (app flag_fallen)) <> "The game has ended.".
Proof.
  destruct (@reachable_result_fits_reason chess json flag_fallen flag_fallen_reachable)
    as [_ [_ Hended]].
  destruct (Hended eq_refl) as [_ Hdetail].
  split; [reflexivity | exact Hdetail].
Defined.

Lemma reachable_thinking_has_pending_work_witness : tasks after_f3 <> [].
Proof.
  apply (@reachable_thinking_has_pending_work chess json after_f3 after_f3_reachable).
  reflexivity.
Defined.

Lemma tick_runs_one_clock_witness :
  aiTime (tick (app after_f3)) = Z.max 0 (aiTime (app after_f3) - 1)
  /\ playerTime (tick (app after_f3)) = playerTime (app after_f3).
Proof.
  destruct (tick_runs_one_clock (app after_f3)) as [_ [_ [Hai _]]].
  apply Hai; reflexivity.
Defined.

Lemma clock_runs_out_witness :
  ticks 600 (app after_f3) = setAiTime 0 (app after_f3)
  /\ gameStatus (gameState (ticks 601 (app after_f3))) = ended
  /\ result (gameState (ticks 601 (app after_f3))) = Some player.
Proof.
  destruct (@clock_runs_out (app after_f3) 600 eq_refl) as [_ Hai].
  destruct (Hai eq_refl eq_refl) as [H1 [_ [H2 [H3 _]]]].
  split; [exact H1 | split; [exact H2 | exact H3]].
Defined.

Lemma handleSubmit_starts_only_with_old_key_witness :
  handleSubmit "pk-test" "gpt-4o" initial_app = initial_app
  /\ apiKey (handleSubmit "sk-test " "gpt-4o" initial_app) = "sk-test"
  /\ gameState (handleSubmit "sk-test " "gpt-4o" initial_app) = gameState initial_app
  /\ gameState (handleSubmit "sk-next" "gpt-4o" (setApiKey "sk-test" initial_app))
     = fresh_game.
Proof.
  destruct (proj2 (handleSubmit_starts_only_with_old_key "sk-test " "gpt-4o" initial_app)
              eq_refl)
    as [Hkey [_ [_ [Hstays _]]]].
  destruct (proj2 (handleSubmit_starts_only_with_old_key "sk-next" "gpt-4o"
                     (setApiKey "sk-test" initial_app)) eq_refl)
    as [_ [_ [_ [_ [Hstarts _]]]]].
  split; [|split; [exact Hkey | split]].
  - apply (proj1 (handleSubmit_starts_only_with_old_key "pk-test" "gpt-4o" initial_app)).
    reflexivity.
  - apply Hstays; reflexivity.
  - apply Hstarts; [reflexivity | discriminate].
Defined.

Lemma accepted_drop_witness :
  exists mv newFen,
    move chess (fen (gameState (app started)))
         {| rq_from := "f2"; rq_to := "f3"; rq_promotion := Some "q" |}
    = Applied mv newFen
    /\ isPlayerTurn (gameState (app started)) = true
    /\ gameStatus (gameState (app started)) = playing
    /\ fen (gameState (app after_f3)) = newFen
    /\ isPlayerTurn (gameState (app after_f3)) = false
    /\ moveHistory (app after_f3)
       = (moveHistory (app started) ++ [human_entry newFen mv])%list
    /\ playerTime (app after_f3) = playerTime (app started)
    /\ aiTime (app after_f3) = aiTime (app started)
    /\ (gameStatus (gameState (app after_f3)) = ended ->
        tasks after_f3 = tasks started
        /\ isThinking (app after_f3) = isThinking (app started))
    /\ (gameStatus (gameState (app after_f3)) <> ended ->
        gameStatus (gameState (app after_f3)) = playing
        /\ isThinking (app after_f3) = true
        /\ tasks after_f3
           = (tasks started ++ [AwaitGenerateMove newFen (moveHistory (app started))
                                  (apiKey (app started))
                                  (selectedModel (app started))])%list).
Proof.
  apply (@accepted_drop chess started "f2" "f3" after_f3). reflexivity.
Defined.

Lemma restart_keeps_pending_answer_witness :
  exists wd1 wd2 wd3,
    step chess json ClickStart after_f3 = Some wd1
    /\ gameState (app wd1) = fresh_game
    /\ moveHistory (app wd1) = []
    /\ tasks wd1 = tasks after_f3
    /\ step chess json (Settle 0 answers_e5 draw_) wd1 = Some wd2
    /\ step chess json (Fire (length (tasks after_f3) - 1)) wd2 = Some wd3
    /\ fen (gameState (app wd3)) = gm_fen e5_generated
    /\ isPlayerTurn (gameState (app wd3)) = true
    /\ moveHistory (app wd3) = [ai_entry e5_generated (quiet "e7" "e5" "p" "e5")].
Proof.
  apply (@restart_keeps_pending_answer chess json after_f3 0 f3 [] "sk-test" "gpt-4o"
           answers_e5 draw_ e5_generated (quiet "e7" "e5" "p" "e5")).
  - discriminate.
  - reflexivity.
  - reflexivity.
  - reflexivity.
Defined.

Lemma checkGameStatus_cases_witness :
  p_inCheck (checkGameStatus chess fools_mate) = Some true
  /\ p_gameStatus (checkGameStatus chess fools_mate) = Some ended.
Proof.
  destruct (checkGameStatus_cases chess fools_mate) as [_ [_ [Hstatus [Hover _]]]].
  destruct (Hover eq_refl) as [Hcheck _].
  split; [exact Hcheck | exact Hstatus].
Defined.

Lemma findKingSquare_finds_the_king_witness :
  findKingSquare chess fools_mate White <> None.
Proof.
  apply (proj2 (findKingSquare_finds_the_king chess fools_mate White)
           7 4 (mkPiece "k" White)); try reflexivity; lia.
Defined.

Lemma formatTime_minutes_and_seconds_witness :
  formatTime (60 * 9 + 5) = "09:05"
  /\ String.length (formatTime 600) = 5
  /\ (formatTime 600 = formatTime 60 -> 600 = 60).
Proof.
  destruct formatTime_minutes_and_seconds as [Hsplit [Hshape Hdiff]].
  split; [|split].
  - rewrite (Hsplit 9 5) by lia. reflexivity.
  - apply (Hshape 600). lia.
  - apply (Hdiff 600 60); lia.
Defined.

Lemma shownReasoning_is_bounded_witness :
  shownReasoning "takes the centre" = "takes the centre".
Proof.
  apply (shownReasoning_is_bounded "takes the centre"). simpl. lia.
Defined.

End MoreRuns.

(* ================================================================== *)
(** ** The history *)

Lemma startGame_in_history key a :
  moveHistory (startGame_in key a) = moveHistory a
  \/ moveHistory (startGame_in key a) = [].
Proof. unfold startGame_in. destruct (negb (truthy key)); simpl; auto. Qed.

Lemma handleSubmit_history key model a :
  moveHistory (handleSubmit key model a) = moveHistory a
  \/ moveHistory (handleSubmit key model a) = [].
Proof.
  unfold handleSubmit.
  destruct (negb (truthy key) || String.eqb (trim key) EmptyString); auto.
  destruct (negb (startsWith key "sk-")); auto.
  unfold handleApiKeySubmit. simpl.
  destruct (gameStatus (gameState a)); simpl; auto.
  match goal with |- context [startGame_in ?k ?x] =>
    destruct (startGame_in_history k x) as [H|H]; rewrite H; auto end.
Qed.

Section Edges.

Variable R : Rules.
Variable J : Json.

(** X21. No event rewrites the move history: it stays as it is, is emptied
    by a new game, or gets one entry at its end, the human's (without
    reasoning) or the model's (with its reasoning). *)
Theorem history_only_grows_at_the_end ev wd wd' :
  step R J ev wd = Some wd' ->
  moveHistory (app wd') = moveHistory (app wd)
  \/ moveHistory (app wd') = []
  \/ exists entry,
       moveHistory (app wd') = (moveHistory (app wd) ++ [entry])%list
       /\ (cm_player entry = You /\ cm_reasoning entry = None
           \/ cm_player entry = AI /\ exists why, cm_reasoning entry = Some why).
Proof.
  destruct ev as [|key model|s t| |i service r|i|opened]; simpl.
  - intros H; inversion H; subst; clear H. simpl. unfold startGame.
    destruct (startGame_in_history (apiKey (app wd)) (app wd)); auto.
  - intros H; inversion H; subst; clear H. simpl.
    destruct (handleSubmit_history key model (app wd)); auto.
  - intros H; inversion H; subst; clear H. unfold onDrop.
    destruct (negb _); simpl; auto.
    match goal with |- context [move R ?f ?q] =>
      destruct (move R f q) as [mv newFen| |msg] end; simpl; auto.
    unfold handleMove.
    destruct (p_gameStatus (checkGameStatus R newFen)) as [[| |]|]; simpl;
      right; right; exists (human_entry newFen mv); simpl; auto.
  - intros H; inversion H; subst; clear H. simpl. left. unfold tick.
    destruct (gameStatus (gameState (app wd))); auto.
    destruct (isPlayerTurn (gameState (app wd)));
      [destruct (playerTime (app wd) <=? 0)%Z | destruct (aiTime (app wd) <=? 0)%Z];
      reflexivity.
  - destruct (nth_error (tasks wd) i) as [[newFen hist key model|aiMove st]|];
      try discriminate.
    destruct (run (generateMove R J newFen hist key model) service r) as [res|e];
      simpl; intros H; inversion H; subst; clear H; simpl; auto.
    destruct (isAuthError e); auto.
  - destruct (nth_error (tasks wd) i) as [[newFen hist key model|aiMove st]|];
      try discriminate.
    unfold handleMove_timeout.
    destruct (gm_move aiMove) as [mv|]; [|discriminate].
    intros H; inversion H; subst; clear H. simpl.
    right; right. exists (ai_entry aiMove mv). simpl. eauto.
  - intros H; inversion H; subst; clear H. simpl. auto.
Qed.

End Edges.

Module EdgeRuns.
Import Scripted ScriptedFacts Run.

Lemma prompt_shows_position_and_moves_witness :
  includes (prompt chess json start_fen [] (moves chess start_fen))
           "This is the beginning of the game." = true
  /\ includes (prompt chess json e4 [e4_by_you] (moves chess e4))
              (formattedHistory [e4_by_you]) = true.
Proof.
  split.
  - destruct (prompt_shows_position_and_moves chess json start_fen []
                (moves chess start_fen)) as [_ [_ [_ [Hempty _]]]].
    apply Hempty. reflexivity.
  - destruct (prompt_shows_position_and_moves chess json e4 [e4_by_you] (moves chess e4))
      as [_ [_ [_ [_ Hfull]]]].
    destruct Hfull as [_ [Hhistory _]]; [discriminate | exact Hhistory].
Defined.

Lemma history_only_grows_at_the_end_witness :
  moveHistory (app after_f3) = moveHistory (app started)
  \/ moveHistory (app after_f3) = []
  \/ exists entry,
       moveHistory (app after_f3) = (moveHistory (app started) ++ [entry])%list
       /\ (cm_player entry = You /\ cm_reasoning entry = None
           \/ cm_player entry = AI /\ exists why, cm_reasoning entry = Some why).
Proof.
  apply (@history_only_grows_at_the_end chess json (PieceDrop "f2" "f3") started after_f3).
  reflexivity.
Defined.

End EdgeRuns.
